(** * populate_expiry_date: the management command that fills in [expiry_date]

    Shallow embedding of
    [lms/djangoapps/verify_student/management/commands/populate_expiry_date.py].

    The table of [SoftwareSecurePhotoVerification] rows is a list of records
    in table order.  A Django queryset is lazy: it is a description of a query
    (lookups and an ordering) that is evaluated against the table as it is at
    the moment the queryset is indexed or iterated.  The command runs in a
    small state-and-exception monad over the table and a trace of its
    effects (rows written, log lines). *)

From Stdlib Require Import ZArith List String Bool Lia.
Import ListNotations.
Local Open Scope string_scope.
Local Open Scope list_scope.
Local Open Scope Z_scope.

(** ** The model class *)

(** Modelled from the spec: the model class [SoftwareSecurePhotoVerification]
    (not part of the sources at hand).  Its columns are the ones the command
    reads and writes: the primary key, the user, the status, the update
    timestamp and the nullable expiry timestamp.  A [datetime] is a number
    of microseconds. *)
Record verification : Type := mkVerification {
  id : Z;
  user_id : Z;
  status : string;
  updated_at : Z;
  expiry_date : option Z
}.

Definition table := list verification.

(** [timedelta(days=d)], in microseconds. *)
Definition timedelta_days (d : Z) : Z := d * 86400000000.

(** ** Querysets *)

(** The field lookups the command uses in [filter(...)]. *)
Inductive lookup : Type :=
| status_exact (s : string)          (* status='approved' *)
| user_id_exact (u : Z)              (* user_id=u *)
| user_id__gte (u : Z)               (* user_id__gte=u *)
| user_id__lt (u : Z).               (* user_id__lt=u *)

Inductive field : Type := f_user_id | f_updated_at.

(** [order_by('-f')] is [Some (true, f)], [order_by('f')] is
    [Some (false, f)], [order_by()] is [None]. *)
Definition ordering := option (bool * field).

Record queryset : Type := mkQuerySet {
  lookups : list lookup;
  order : ordering
}.

Definition objects : queryset := {| lookups := []; order := None |}.

Definition filter_ (ls : list lookup) (q : queryset) : queryset :=
  {| lookups := lookups q ++ ls; order := order q |}.

Definition order_by (o : ordering) (q : queryset) : queryset :=
  {| lookups := lookups q; order := o |}.

(** [reverse()] flips the direction of the ordering. *)
Definition reverse (q : queryset) : queryset :=
  {| lookups := lookups q;
     order := match order q with
              | Some (desc, f) => Some (negb desc, f)
              | None => None
              end |}.

Definition matches (l : lookup) (r : verification) : bool :=
  match l with
  | status_exact s => String.eqb (status r) s
  | user_id_exact u => user_id r =? u
  | user_id__gte u => u <=? user_id r
  | user_id__lt u => user_id r <? u
  end.

Definition field_value (f : field) (r : verification) : Z :=
  match f with
  | f_user_id => user_id r
  | f_updated_at => updated_at r
  end.

(** [ORDER BY]: a stable insertion sort on the key.  The database is free in
    the order of rows with equal keys; here they stay in table order, so that
    a query has one answer. *)
Fixpoint insert_by (desc : bool) (f : field) (r : verification)
  (l : list verification) : list verification :=
  match l with
  | [] => [r]
  | x :: l' =>
      if (if desc then field_value f x <=? field_value f r
          else field_value f r <=? field_value f x)
      then r :: l
      else x :: insert_by desc f r l'
  end.

Fixpoint sort_by (desc : bool) (f : field) (l : list verification)
  : list verification :=
  match l with
  | [] => []
  | r :: l' => insert_by desc f r (sort_by desc f l')
  end.

Definition apply_order (o : ordering) (l : list verification)
  : list verification :=
  match o with
  | Some (desc, f) => sort_by desc f l
  | None => l
  end.

Definition selects (q : queryset) (r : verification) : bool :=
  forallb (fun l => matches l r) (lookups q).

(** The rows a queryset yields when it is evaluated against a table. *)
Definition rows (q : queryset) (db : table) : list verification :=
  apply_order (order q) (filter (selects q) db).

(** [SELECT DISTINCT]: the first occurrence of each value is kept. *)
Fixpoint distinct (l : list Z) : list Z :=
  match l with
  | [] => []
  | u :: l' => u :: filter (fun v => negb (v =? u)) (distinct l')
  end.

(** [q.order_by().values('user_id').distinct()].  With the ordering cleared
    the database is free in the order of the users it returns; table order
    is the answer taken here.  What is stated about a run below holds for
    the users of a window as a set and does not go by this order. *)
Definition values_user_id_distinct (q : queryset) (db : table) : list Z :=
  distinct (map user_id (rows (order_by None q) db)).

(** ** Effects *)

Inductive exn : Type := IndexError | DoesNotExist | DatabaseError.

Inductive level : Type := INFO | WARNING.

Inductive message : Type :=
| msg_text (s : string)
| msg_datetime (t : Z).

(** What a run does to the outside: rows written with [save()], a [save()]
    the database refused, lines given to the logger. *)
Inductive event : Type :=
| ev_save (r : verification)
| ev_save_failed (r : verification)
| ev_log (l : level) (m : message).

Record world : Type := mkWorld {
  db : table;
  trace : list event
}.

(** The outcome of a computation: a value, an exception (both with the world
    as it is then), or a loop that has not finished within the fuel. *)
Inductive result (A : Type) : Type :=
| Val (a : A) (w : world)
| Exc (e : exn) (w : world)
| OutOfFuel.
Arguments Val {A} a w.
Arguments Exc {A} e w.
Arguments OutOfFuel {A}.

Definition M (A : Type) : Type := world -> result A.

Definition ret {A} (a : A) : M A := fun w => Val a w.

Definition bind {A B} (m : M A) (k : A -> M B) : M B :=
  fun w =>
    match m w with
    | Val a w' => k a w'
    | Exc e w' => Exc e w'
    | OutOfFuel => OutOfFuel
    end.

Definition raise {A} (e : exn) : M A := fun w => Exc e w.

Declare Scope cmd_scope.
Delimit Scope cmd_scope with cmd.
Notation "x <- m ;; k" := (bind m (fun x => k))
  (at level 61, m at next level, right associativity) : cmd_scope.
Notation "m ;; k" := (bind m (fun _ => k))
  (at level 61, right associativity) : cmd_scope.
Local Open Scope cmd_scope.

(** [try: body except e: handler] *)
Definition try_except {A} (body : M A) (e : exn) (handler : M A) : M A :=
  fun w =>
    match body w with
    | Exc e' w' =>
        match e, e' with
        | IndexError, IndexError
        | DoesNotExist, DoesNotExist
        | DatabaseError, DatabaseError => handler w'
        | _, _ => Exc e' w'
        end
    | r => r
    end.

Fixpoint for_each {A} (l : list A) (body : A -> M unit) : M unit :=
  match l with
  | [] => ret tt
  | a :: l' => body a ;; for_each l' body
  end.

Definition log (l : level) (m : message) : M unit :=
  fun w => Val tt {| db := db w; trace := trace w ++ [ev_log l m] |}.

(** [q[0]]: the first row, or [IndexError]. *)
Definition index0 (q : queryset) : M verification :=
  fun w =>
    match rows q (db w) with
    | r :: _ => ret r w
    | [] => raise IndexError w
    end.

(** [q.latest('updated_at')]: the first row of the queryset ordered by
    descending [updated_at], or [DoesNotExist]. *)
Definition latest (f : field) (q : queryset) : M verification :=
  fun w =>
    match rows (order_by (Some (true, f)) q) (db w) with
    | r :: _ => ret r w
    | [] => raise DoesNotExist w
    end.

(** Iterating [q.order_by().values('user_id').distinct()]. *)
Definition iterate_users (q : queryset) : M (list Z) :=
  fun w => Val (values_user_id_distinct q (db w)) w.

(** Modelled from the spec: what [save()] of the model class (not part of the
    sources at hand) persists.  The change is written back as it stands: an
    [UPDATE] of the row with the instance's primary key to the instance's
    fields, an [INSERT] when there is none; no column is recomputed on the
    way. *)
Definition write_row (r : verification) (t : table) : table :=
  if existsb (fun x => id x =? id r) t
  then map (fun x => if id x =? id r then r else x) t
  else t ++ [r].

Section Command.

(** [settings.VERIFY_STUDENT["DAYS_GOOD_FOR"]] *)
Variable DAYS_GOOD_FOR : Z.

(** The database may refuse a write; whether it does is the environment's
    choice, which may depend on everything that happened so far and on the
    row. *)
Variable save_fails : list event -> verification -> bool.

Definition save (r : verification) : M unit :=
  fun w =>
    if save_fails (trace w) r
    then Exc DatabaseError
           {| db := db w; trace := trace w ++ [ev_save_failed r] |}
    else Val tt
           {| db := write_row r (db w); trace := trace w ++ [ev_save r] |}.

(** [__init__]:
    [SoftwareSecurePhotoVerification.objects.filter(status='approved').order_by('-user_id')] *)
Definition sspv : queryset :=
  order_by (Some (true, f_user_id)) (filter_ [status_exact "approved"] objects).

(** [find_recent_verification] *)
Definition find_recent_verification (u : Z) : M verification :=
  latest f_updated_at (filter_ [user_id_exact u] sspv).

(** [recent_verification.expiry_date = recent_verification.updated_at
     + timedelta(days=settings.VERIFY_STUDENT["DAYS_GOOD_FOR"])] *)
Definition set_expiry_date (r : verification) : verification :=
  {| id := id r; user_id := user_id r; status := status r;
     updated_at := updated_at r;
     expiry_date := Some (updated_at r + timedelta_days DAYS_GOOD_FOR) |}.

(** The body of [for user in users]. *)
Definition process_user (u : Z) : M unit :=
  recent_verification <- find_recent_verification u ;;
  let recent_verification := set_expiry_date recent_verification in
  save recent_verification ;;
  log WARNING (msg_datetime (updated_at recent_verification)).

Definition batch_queryset (batch_start batch_stop : Z) : queryset :=
  filter_ [user_id__gte batch_start; user_id__lt batch_stop] sspv.

(** [while batch_start <= max_user_id: ...]; one unit of fuel per
    iteration. *)
Fixpoint while_loop (fuel : nat) (batch_size max_user_id batch_start batch_stop : Z)
  : M unit :=
  if batch_start <=? max_user_id then
    match fuel with
    | O => fun _ => OutOfFuel
    | S fuel' =>
        users <- iterate_users (batch_queryset batch_start batch_stop) ;;
        for_each users process_user ;;
        while_loop fuel' batch_size max_user_id batch_stop (batch_stop + batch_size)
    end
  else ret tt.

(** The [try] block at the head of [handle]. *)
Definition first_batch (batch_size : Z) : M (Z * Z * Z) :=
  r_max <- index0 sspv ;;
  let max_user_id := user_id r_max in
  r_min <- index0 (reverse sspv) ;;
  let batch_start := user_id r_min in
  let batch_stop := batch_start + batch_size in
  ret (max_user_id, batch_start, batch_stop).

Definition no_entries : string :=
  "IndexError: No approved entries found in SoftwareSecurePhotoVerification".

(** [handle], with [options['batch_size']] as argument.  The [try] block
    guards the three assignments only; its handler logs and returns. *)
Definition handle (fuel : nat) (batch_size : Z) : M unit :=
  first <- try_except
             (b <- first_batch batch_size ;; ret (Some b))
             IndexError
             (log INFO (msg_text no_entries) ;; ret None) ;;
  match first with
  | None => ret tt
  | Some (max_user_id, batch_start, batch_stop) =>
      while_loop fuel batch_size max_user_id batch_start batch_stop
  end.

End Command.

(** The default of [--batch_size] in [add_arguments]. *)
Definition default_batch_size : Z := 1000.

(** A database that never refuses a write. *)
Definition never_fails : list event -> verification -> bool := fun _ _ => false.

(** ** Pure views of a run, used to state what it does *)

Definition approved (r : verification) : bool :=
  String.eqb (status r) "approved".

(** The row [find_recent_verification] answers with on a given table. *)
Definition recent (t : table) (u : Z) : option verification :=
  hd_error
    (rows (order_by (Some (true, f_updated_at))
             (filter_ [user_id_exact u] sspv)) t).

(** The row is the one [find_recent_verification] picks for its own user. *)
Definition is_recent (t : table) (x : verification) : bool :=
  match recent t (user_id x) with
  | Some r => id r =? id x
  | None => false
  end.

(** What a complete run leaves of a row, and of the table. *)
Definition populate_row (days : Z) (t : table) (x : verification)
  : verification :=
  if is_recent t x then set_expiry_date days x else x.

Definition populate (days : Z) (t : table) : table :=
  map (populate_row days t) t.

(** The successive windows [[start, start + batch_size)]. *)
Fixpoint batches (n : nat) (batch_size batch_start : Z) : list (Z * Z) :=
  match n with
  | O => []
  | S n' =>
      (batch_start, batch_start + batch_size)
        :: batches n' batch_size (batch_start + batch_size)
  end.

Definition users_of_batch (t : table) (b : Z * Z) : list Z :=
  values_user_id_distinct (batch_queryset (fst b) (snd b)) t.

Definition scheduled (t : table) (bs : list (Z * Z)) : list Z :=
  flat_map (users_of_batch t) bs.

(** Largest and smallest [user_id] of the approved rows, as [handle] reads
    them. *)
Definition bounds (t : table) : option (Z * Z) :=
  match rows sspv t, rows (reverse sspv) t with
  | r_max :: _, r_min :: _ => Some (user_id r_max, user_id r_min)
  | _, _ => None
  end.

(** Number of iterations of the [while] loop from [batch_start]. *)
Definition iterations_from (batch_size max_user_id batch_start : Z) : nat :=
  if batch_start <=? max_user_id
  then S (Z.to_nat ((max_user_id - batch_start) / batch_size))
  else O.

Definition iterations (t : table) (batch_size : Z) : nat :=
  match bounds t with
  | Some (mx, mn) => iterations_from batch_size mx mn
  | None => O
  end.

(** The windows a run goes through and the users it processes, in order. *)
Definition run_batches (t : table) (batch_size : Z) : list (Z * Z) :=
  match bounds t with
  | Some (mx, mn) => batches (iterations_from batch_size mx mn) batch_size mn
  | None => []
  end.

Definition run_users (t : table) (batch_size : Z) : list Z :=
  scheduled t (run_batches t batch_size).

(** The rows written for a list of users, as computed on table [t]. *)
Definition planned (days : Z) (t : table) (us : list Z) : list verification :=
  flat_map (fun u => match recent t u with
                     | Some r => [set_expiry_date days r]
                     | None => []
                     end) us.

Definition write_events (r : verification) : list event :=
  [ev_save r; ev_log WARNING (msg_datetime (updated_at r))].

(** The trace of a complete run on which no write is refused. *)
Definition run_events (days : Z) (t : table) (batch_size : Z) : list event :=
  match bounds t with
  | Some _ => flat_map write_events (planned days t (run_users t batch_size))
  | None => [ev_log INFO (msg_text no_entries)]
  end.

(** The user ids written by [save()] in a trace, in order. *)
Definition saved_users (tr : list event) : list Z :=
  flat_map (fun e => match e with ev_save r => [user_id r] | _ => [] end) tr.

(** [id] is the primary key: no two rows of a table share it. *)
Definition unique_ids (t : table) : Prop := NoDup (map id t).

(** A row with its [expiry_date] blanked: the columns a run never writes. *)
Definition columns (r : verification) : verification :=
  {| id := id r; user_id := user_id r; status := status r;
     updated_at := updated_at r; expiry_date := None |}.

(** A change of rows that leaves the columns a run never writes alone. *)
Definition keeps_columns (g : verification -> verification) : Prop :=
  forall x, columns (g x) = columns x.

(** One write-back and its log line. *)
Definition write_and_log (save_fails : list event -> verification -> bool)
  (r : verification) : M unit :=
  save save_fails r ;; log WARNING (msg_datetime (updated_at r)).

(** The table after a sequence of successful writes. *)
Definition write_rows (rs : list verification) (t : table) : table :=
  fold_left (fun t' r => write_row r t') rs t.

(** The world still holds the rows of [t0], up to their [expiry_date]. *)
Definition same_columns (t0 : table) (w : world) : Prop :=
  map columns (db w) = map columns t0.

(** A row after the rows with primary keys [ids] have been written back. *)
Definition touch (days : Z) (ids : list Z) (x : verification) : verification :=
  if existsb (Z.eqb (id x)) ids then set_expiry_date days x else x.

(** ** A sample table *)

Definition day : Z := timedelta_days 1.

(** User 42 has two approved rows, updated on day 1 and on day 5; user 7 has
    a denied row and user 1042 one approved row. *)
Definition sample_table : table :=
  [ {| id := 1; user_id := 42; status := "approved";
       updated_at := 1 * day; expiry_date := None |};
    {| id := 2; user_id := 42; status := "approved";
       updated_at := 5 * day; expiry_date := None |};
    {| id := 3; user_id := 7; status := "denied";
       updated_at := 2 * day; expiry_date := None |};
    {| id := 4; user_id := 1042; status := "approved";
       updated_at := 3 * day; expiry_date := None |} ].

Definition sample_world : world := {| db := sample_table; trace := [] |}.

(** A table without approved rows. *)
Definition denied_table : table :=
  [ {| id := 3; user_id := 7; status := "denied";
       updated_at := 2 * day; expiry_date := None |} ].

(** A database that refuses the second write of a run. *)
Definition second_write_fails : list event -> verification -> bool :=
  fun tr _ => (1 <=? Z.of_nat (List.length (saved_users tr))).

(** ** The command line *)

(** [add_arguments]: the one option of the command, [--batch_size], is stored
    under [batch_size], converted by [int] (any integer, also zero or
    negative, passes) and defaults to 1000 when it is not given. *)
Definition batch_size_option (given : option Z) : Z :=
  match given with
  | Some n => n
  | None => default_batch_size
  end.

(** The command as the framework runs it: [handle] with the parsed
    options. *)
Definition run_command (days : Z)
  (save_fails : list event -> verification -> bool) (fuel : nat)
  (given : option Z) : M unit :=
  handle days save_fails fuel (batch_size_option given).

(** The rows written and the lines logged in a trace, in order. *)
Definition saved_rows (tr : list event) : list verification :=
  flat_map (fun e => match e with ev_save r => [r] | _ => [] end) tr.

Definition log_lines (tr : list event) : list (level * message) :=
  flat_map (fun e => match e with ev_log l m => [(l, m)] | _ => [] end) tr.

(** The rows of one user. *)
Definition of_user (u : Z) (r : verification) : bool := user_id r =? u.

(** The sample world after a run that [second_write_fails] has interrupted:
    the row of user 42 is written, the write of the row of user 1042 was
    refused. *)
Definition interrupted_world : world :=
  {| db :=
       [ {| id := 1; user_id := 42; status := "approved";
            updated_at := 1 * day; expiry_date := None |};
         {| id := 2; user_id := 42; status := "approved";
            updated_at := 5 * day; expiry_date := Some (370 * day) |};
         {| id := 3; user_id := 7; status := "denied";
            updated_at := 2 * day; expiry_date := None |};
         {| id := 4; user_id := 1042; status := "approved";
            updated_at := 3 * day; expiry_date := None |} ];
     trace :=
       [ ev_save {| id := 2; user_id := 42; status := "approved";
                    updated_at := 5 * day;
                    expiry_date := Some (370 * day) |};
         ev_log WARNING (msg_datetime (5 * day));
         ev_save_failed {| id := 4; user_id := 1042; status := "approved";
                           updated_at := 3 * day;
                           expiry_date := Some (368 * day) |} ] |}.

(** ** Ordering and filtering *)

Lemma insert_by_In desc f r l x :
  In x (insert_by desc f r l) <-> x = r \/ In x l.
Proof.
  induction l as [|y l IH]; simpl.
  - intuition.
  - destruct (if desc then _ else _); simpl; rewrite ?IH; intuition.
Qed.

Lemma sort_by_In desc f l x : In x (sort_by desc f l) <-> In x l.
Proof.
  induction l as [|y l IH]; simpl; [tauto|].
  rewrite insert_by_In, IH. intuition.
Qed.

Lemma insert_by_map (g : verification -> verification) desc f r l :
  (forall x, field_value f (g x) = field_value f x) ->
  insert_by desc f (g r) (map g l) = map g (insert_by desc f r l).
Proof.
  intros Hg. induction l as [|y l IH]; simpl; [reflexivity|].
  rewrite !Hg. destruct (if desc then _ else _); simpl; [reflexivity|].
  now rewrite IH.
Qed.

Lemma sort_by_map (g : verification -> verification) desc f l :
  (forall x, field_value f (g x) = field_value f x) ->
  sort_by desc f (map g l) = map g (sort_by desc f l).
Proof.
  intros Hg. induction l as [|y l IH]; simpl; [reflexivity|].
  now rewrite IH, insert_by_map.
Qed.

(** The head of a sorted list bounds every element. *)
Lemma sort_by_head desc f l m rest :
  sort_by desc f l = m :: rest ->
  forall x, In x l ->
    if desc then field_value f x <= field_value f m
    else field_value f m <= field_value f x.
Proof.
  revert m rest. induction l as [|r l IH]; intros m rest Hs x Hx; [easy|].
  simpl in Hs. destruct (sort_by desc f l) as [|y s] eqn:Es.
  - simpl in Hs. injection Hs as <- <-.
    destruct Hx as [->|Hx]; [destruct desc; lia|].
    apply (sort_by_In desc f) in Hx. rewrite Es in Hx. easy.
  - specialize (IH y s eq_refl). simpl in Hs.
    destruct desc.
    + destruct (field_value f y <=? field_value f r) eqn:E;
        injection Hs as <- <-.
      * apply Z.leb_le in E. destruct Hx as [->|Hx]; [lia|].
        specialize (IH x Hx). simpl in IH. lia.
      * apply Z.leb_gt in E. destruct Hx as [->|Hx]; [lia|].
        apply (IH x Hx).
    + destruct (field_value f r <=? field_value f y) eqn:E;
        injection Hs as <- <-.
      * apply Z.leb_le in E. destruct Hx as [->|Hx]; [lia|].
        specialize (IH x Hx). simpl in IH. lia.
      * apply Z.leb_gt in E. destruct Hx as [->|Hx]; [lia|].
        apply (IH x Hx).
Qed.


Lemma rows_In q t x : In x (rows q t) <-> In x t /\ selects q x = true.
Proof.
  unfold rows, apply_order. destruct (order q) as [[desc f]|].
  - rewrite sort_by_In. apply filter_In.
  - apply filter_In.
Qed.

Lemma filter_map_commute {A B} (g : A -> B) (p : B -> bool) l :
  filter p (map g l) = map g (filter (fun x => p (g x)) l).
Proof.
  induction l as [|a l IH]; simpl; [reflexivity|].
  destruct (p (g a)); simpl; now rewrite IH.
Qed.

(** ** Rows that differ in [expiry_date] only *)

Lemma columns_fields x y :
  columns x = columns y ->
  id x = id y /\ user_id x = user_id y /\ status x = status y
  /\ updated_at x = updated_at y.
Proof. unfold columns. intros H. injection H. auto. Qed.

Lemma columns_idem : keeps_columns columns.
Proof. intros x. reflexivity. Qed.

Lemma set_expiry_date_congr days x y :
  columns x = columns y -> set_expiry_date days x = set_expiry_date days y.
Proof.
  intros H. apply columns_fields in H as (H1 & H2 & H3 & H4).
  unfold set_expiry_date. now rewrite H1, H2, H3, H4.
Qed.

Lemma matches_columns l x y : columns x = columns y -> matches l x = matches l y.
Proof.
  intros H. apply columns_fields in H as (H1 & H2 & H3 & H4).
  destruct l; simpl; now rewrite ?H2, ?H3.
Qed.

Lemma selects_columns q x y : columns x = columns y -> selects q x = selects q y.
Proof.
  intros H. unfold selects. induction (lookups q) as [|l ls IH]; simpl; [easy|].
  now rewrite IH, (matches_columns l x y H).
Qed.

Lemma field_value_columns f x y :
  columns x = columns y -> field_value f x = field_value f y.
Proof.
  intros H. apply columns_fields in H as (H1 & H2 & H3 & H4).
  now destruct f; simpl.
Qed.

Lemma rows_map q g t :
  keeps_columns g -> rows q (map g t) = map g (rows q t).
Proof.
  intros Hg. unfold rows. rewrite filter_map_commute.
  rewrite (filter_ext (fun x => selects q (g x)) (selects q))
    by (intros x; apply selects_columns, Hg).
  unfold apply_order. destruct (order q) as [[desc f]|]; [|reflexivity].
  apply sort_by_map. intros x. apply field_value_columns, Hg.
Qed.

Lemma rows_columns q t t0 :
  map columns t = map columns t0 ->
  map columns (rows q t) = map columns (rows q t0).
Proof.
  intros H. rewrite <- !rows_map by apply columns_idem. now rewrite H.
Qed.

Lemma users_columns q t t0 :
  map columns t = map columns t0 ->
  values_user_id_distinct q t = values_user_id_distinct q t0.
Proof.
  intros H. unfold values_user_id_distinct. f_equal.
  assert (E : forall l, map user_id l = map user_id (map columns l))
    by (intros l; rewrite map_map; reflexivity).
  rewrite E, (E (rows _ t0)). f_equal. now apply rows_columns.
Qed.

Lemma recent_columns t t0 u :
  map columns t = map columns t0 ->
  option_map columns (recent t u) = option_map columns (recent t0 u).
Proof.
  intros H. unfold recent.
  pose proof (rows_columns
    (order_by (Some (true, f_updated_at)) (filter_ [user_id_exact u] sspv))
    t t0 H) as E.
  assert (Hd : forall l, option_map columns (hd_error l)
                         = hd_error (map columns l)) by (now intros [|a l]).
  now rewrite !Hd, E.
Qed.

Lemma NoDup_map_eq {A B} (f : A -> B) l a b :
  NoDup (map f l) -> In a l -> In b l -> f a = f b -> a = b.
Proof.
  induction l as [|c l IH]; simpl; [easy|].
  intros Hnd Ha Hb E. inversion Hnd as [|? ? Hn Hnd']; subst.
  destruct Ha as [->|Ha], Hb as [->|Hb]; trivial.
  - exfalso. apply Hn. rewrite E. now apply in_map.
  - exfalso. apply Hn. rewrite <- E. now apply in_map.
  - now apply IH.
Qed.

Lemma map_id_columns t t0 :
  map columns t = map columns t0 -> map id t = map id t0.
Proof.
  intros H. apply (f_equal (map id)) in H. now rewrite !map_map in H.
Qed.

(** Writing back a row of the table with a new [expiry_date] is an [UPDATE]
    of that row alone. *)
Lemma write_row_update r t :
  unique_ids t ->
  (exists x, In x t /\ columns x = columns r) ->
  write_row r t = map (fun y => if id y =? id r then r else y) t
  /\ map columns (write_row r t) = map columns t.
Proof.
  intros Hnd (x & Hx & Ex).
  assert (Hid : id x = id r) by (apply columns_fields in Ex; tauto).
  assert (W : write_row r t = map (fun y => if id y =? id r then r else y) t).
  { unfold write_row.
    replace (existsb (fun y => id y =? id r) t) with true; [reflexivity|].
    symmetry. apply existsb_exists. exists x. split; [easy|]. now apply Z.eqb_eq. }
  split; [exact W|]. rewrite W, map_map. apply map_ext_in.
  intros y Hy. destruct (id y =? id r) eqn:E; [|reflexivity].
  apply Z.eqb_eq in E.
  assert (y = x)
    by (apply (NoDup_map_eq id t); [exact Hnd|easy|easy|congruence]).
  now subst.
Qed.

(** ** The monad *)

Lemma bind_assoc {A B C} (m : M A) (k : A -> M B) (h : B -> M C) w :
  bind (bind m k) h w = bind m (fun a => bind (k a) h) w.
Proof. unfold bind. now destruct (m w). Qed.

Lemma for_each_app {A} (l1 l2 : list A) (body : A -> M unit) w :
  for_each (l1 ++ l2) body w
  = bind (for_each l1 body) (fun _ => for_each l2 body) w.
Proof.
  revert w. induction l1 as [|a l1 IH]; intros w; [reflexivity|].
  cbn [app for_each]. rewrite bind_assoc. unfold bind in *.
  destruct (body a w); trivial.
Qed.

Lemma bind_for_each_app {A B} (l1 l2 : list A) (body : A -> M unit)
  (k : unit -> M B) w :
  bind (for_each (l1 ++ l2) body) k w
  = bind (for_each l1 body) (fun _ => bind (for_each l2 body) k) w.
Proof.
  unfold bind at 1. rewrite for_each_app. unfold bind.
  now destruct (for_each l1 body w).
Qed.

Lemma bind_congr {A B} (m m' : M A) (k k' : A -> M B) w :
  m w = m' w ->
  (forall a w', m w = Val a w' -> k a w' = k' a w') ->
  bind m k w = bind m' k' w.
Proof.
  intros Hm Hk. unfold bind. rewrite <- Hm.
  destruct (m w); trivial. now apply Hk.
Qed.

Lemma bind_iterate_users {B} q (k : list Z -> M B) w :
  bind (iterate_users q) k w = k (values_user_id_distinct q (db w)) w.
Proof. reflexivity. Qed.

Lemma planned_app days t us1 us2 :
  planned days t (us1 ++ us2) = planned days t us1 ++ planned days t us2.
Proof. apply flat_map_app. Qed.

(** ** Queries of the command *)

Lemma selects_sspv x : selects sspv x = approved x.
Proof. unfold selects, approved. simpl. apply andb_true_r. Qed.

Lemma selects_reverse_sspv x : selects (reverse sspv) x = approved x.
Proof. unfold selects, approved. simpl. apply andb_true_r. Qed.

Lemma selects_user o u x :
  selects (order_by o (filter_ [user_id_exact u] sspv)) x = true
  <-> approved x = true /\ user_id x = u.
Proof.
  unfold selects, approved. simpl.
  rewrite andb_true_r, andb_true_iff, Z.eqb_eq. tauto.
Qed.

Lemma selects_batch o a b x :
  selects (order_by o (batch_queryset a b)) x = true
  <-> approved x = true /\ a <= user_id x < b.
Proof.
  unfold selects, approved. simpl.
  rewrite andb_true_r, !andb_true_iff, Z.leb_le, Z.ltb_lt. tauto.
Qed.

Lemma recent_spec t u r :
  recent t u = Some r ->
  In r t /\ approved r = true /\ user_id r = u
  /\ forall x, In x t -> approved x = true -> user_id x = u ->
       updated_at x <= updated_at r.
Proof.
  unfold recent. set (q := order_by _ _).
  destruct (rows q t) as [|m rest] eqn:E; [discriminate|].
  intros [= ->].
  assert (Hm : In r (rows q t)) by (rewrite E; now left).
  apply rows_In in Hm as [Hin Hs]. apply selects_user in Hs as [Ha Hu].
  repeat split; trivial. intros x Hx Hxa Hxu.
  unfold rows in E. cbn [order q order_by apply_order] in E.
  apply (sort_by_head true f_updated_at _ _ _ E x).
  apply filter_In. split; [easy|]. now apply selects_user.
Qed.

Lemma recent_exists t u :
  (exists x, In x t /\ approved x = true /\ user_id x = u) ->
  exists r, recent t u = Some r.
Proof.
  intros (x & Hx & Ha & Hu). unfold recent. set (q := order_by _ _).
  destruct (rows q t) as [|m rest] eqn:E; [|now exists m].
  assert (Hin : In x (rows q t))
    by (apply rows_In; split; [easy|now apply selects_user]).
  rewrite E in Hin. easy.
Qed.

Lemma distinct_In l u : In u (distinct l) <-> In u l.
Proof.
  induction l as [|v l IH]; simpl; [tauto|].
  rewrite filter_In, IH, negb_true_iff, Z.eqb_neq.
  destruct (Z.eq_dec v u); intuition.
Qed.

Lemma distinct_NoDup l : NoDup (distinct l).
Proof.
  induction l as [|v l IH]; simpl; constructor.
  - rewrite filter_In, negb_true_iff, Z.eqb_neq. tauto.
  - now apply NoDup_filter.
Qed.

Lemma users_of_batch_In t b u :
  In u (users_of_batch t b)
  <-> fst b <= u < snd b
      /\ exists x, In x t /\ approved x = true /\ user_id x = u.
Proof.
  unfold users_of_batch, values_user_id_distinct.
  rewrite distinct_In, in_map_iff. split.
  - intros (x & Hu & Hx). apply rows_In in Hx as [Hx Hs].
    apply selects_batch in Hs as [Ha Hr].
    split; [now rewrite <- Hu|]. now exists x.
  - intros (Hr & x & Hx & Ha & Hu). exists x. split; [easy|].
    apply rows_In. split; [easy|]. apply selects_batch. now rewrite Hu.
Qed.

Lemma scheduled_cons t b bs :
  scheduled t (b :: bs) = users_of_batch t b ++ scheduled t bs.
Proof. reflexivity. Qed.

Lemma scheduled_In t n batch_size start u :
  0 < batch_size ->
  In u (scheduled t (batches n batch_size start))
  <-> start <= u < start + Z.of_nat n * batch_size
      /\ exists x, In x t /\ approved x = true /\ user_id x = u.
Proof.
  intros Hb. revert start. induction n as [|n IH]; intros start.
  - simpl. split; [easy|]. intros [? _]. lia.
  - cbn [batches]. rewrite scheduled_cons.
    rewrite in_app_iff, IH, users_of_batch_In. cbn [fst snd].
    split.
    + intros [[Hr He]|[Hr He]]; (split; [nia|exact He]).
    + intros [Hr He].
      destruct (Z_lt_ge_dec u (start + batch_size));
        [left|right]; (split; [nia|exact He]).
Qed.

Lemma scheduled_NoDup t n batch_size start :
  0 < batch_size -> NoDup (scheduled t (batches n batch_size start)).
Proof.
  intros Hb. revert start. induction n as [|n IH]; intros start.
  - constructor.
  - cbn [batches]. rewrite scheduled_cons.
    apply NoDup_app.
    + apply distinct_NoDup.
    + apply IH.
    + intros u Hu Hu'. apply users_of_batch_In in Hu as [Hr _].
      apply scheduled_In in Hu' as [Hr' _]; trivial. cbn [fst snd] in Hr. lia.
Qed.

Lemma iterations_from_step batch_size mx start :
  0 < batch_size -> start <= mx ->
  iterations_from batch_size mx start
  = S (iterations_from batch_size mx (start + batch_size)).
Proof.
  intros Hb Hs. unfold iterations_from.
  destruct (Z.leb_spec start mx); [|lia].
  destruct (Z.leb_spec (start + batch_size) mx).
  - replace (mx - start) with ((mx - (start + batch_size)) + 1 * batch_size)
      by lia.
    rewrite Z.div_add by lia.
    rewrite Z2Nat.inj_add by (try apply Z.div_pos; lia).
    simpl. lia.
  - now rewrite Z.div_small by lia.
Qed.

Lemma iterations_from_bound batch_size mx start :
  0 < batch_size ->
  mx < start + Z.of_nat (iterations_from batch_size mx start) * batch_size.
Proof.
  intros Hb. unfold iterations_from. destruct (Z.leb_spec start mx); [|lia].
  rewrite Nat2Z.inj_succ, Z2Nat.id by (apply Z.div_pos; lia).
  pose proof (Z.mod_pos_bound (mx - start) batch_size Hb).
  pose proof (Z.div_mod (mx - start) batch_size). nia.
Qed.

(** ** One run against a table [t0] *)

Section Run.

Variable days : Z.
Variable save_fails : list event -> verification -> bool.
Variable t0 : table.
Hypothesis t0_unique : unique_ids t0.

Lemma process_user_recent u w :
  process_user days save_fails u w
  = match recent (db w) u with
    | Some r => write_and_log save_fails (set_expiry_date days r) w
    | None => Exc DoesNotExist w
    end.
Proof.
  unfold process_user, find_recent_verification, latest, recent, bind.
  now destruct (rows _ (db w)).
Qed.

Lemma same_columns_unique w : same_columns t0 w -> unique_ids (db w).
Proof.
  intros H. unfold unique_ids. now rewrite (map_id_columns _ _ H).
Qed.

Lemma same_columns_In w x :
  same_columns t0 w -> In x t0 ->
  exists y, In y (db w) /\ columns y = columns x.
Proof.
  intros H Hx. apply (in_map columns) in Hx. rewrite <- H in Hx.
  apply in_map_iff in Hx as (y & E & Hy). now exists y.
Qed.

(** A write-back of a row of [t0] keeps every column but [expiry_date]. *)
Lemma write_same_columns r w w' :
  same_columns t0 w ->
  (exists x, In x t0 /\ columns x = columns r) ->
  write_and_log save_fails r w = Val tt w' ->
  same_columns t0 w'.
Proof.
  intros Hw (x & Hx & Ex) Hr.
  destruct (same_columns_In w x Hw Hx) as (y & Hy & Ey).
  unfold write_and_log, bind, save, log in Hr.
  destruct (save_fails (trace w) r); [discriminate|].
  injection Hr as <-. unfold same_columns. cbn [db].
  destruct (write_row_update r (db w)) as [_ E].
  - now apply same_columns_unique.
  - exists y. split; [easy|congruence].
  - now rewrite E.
Qed.

Lemma planned_rows us r :
  In r (planned days t0 us) ->
  exists x, In x t0 /\ columns x = columns r.
Proof.
  unfold planned. rewrite in_flat_map. intros (u & _ & Hr).
  destruct (recent t0 u) as [x|] eqn:E; [|easy].
  destruct Hr as [<-|[]]. exists x. split; [|reflexivity].
  now apply recent_spec in E.
Qed.

Lemma for_each_write_same_columns rs w w' :
  same_columns t0 w ->
  (forall r, In r rs -> exists x, In x t0 /\ columns x = columns r) ->
  for_each rs (write_and_log save_fails) w = Val tt w' ->
  same_columns t0 w'.
Proof.
  revert w. induction rs as [|r rs IH]; intros w Hw Hrs Hr.
  - injection Hr as <-. exact Hw.
  - cbn [for_each] in Hr. unfold bind in Hr.
    destruct (write_and_log save_fails r w) as [[] w1| |] eqn:E;
      try discriminate.
    apply (IH w1); trivial.
    + apply (write_same_columns r w w1); trivial. apply Hrs. now left.
    + intros r' Hr'. apply Hrs. now right.
Qed.

(** The queries of the loop body can be answered on [t0]: the body writes
    the planned rows. *)
Lemma for_each_process us w :
  same_columns t0 w ->
  (forall u, In u us -> exists r, recent t0 u = Some r) ->
  for_each us (process_user days save_fails) w
  = for_each (planned days t0 us) (write_and_log save_fails) w.
Proof.
  revert w. induction us as [|u us IH]; intros w Hw Hus; [reflexivity|].
  destruct (Hus u (or_introl eq_refl)) as (r0 & E0).
  pose proof (recent_columns (db w) t0 u Hw) as E.
  rewrite E0 in E. destruct (recent (db w) u) as [r|] eqn:E1; [|discriminate].
  cbn [option_map] in E. injection E as E.
  assert (Es : set_expiry_date days r = set_expiry_date days r0)
    by (apply set_expiry_date_congr; unfold columns; congruence).
  unfold planned. cbn [flat_map]. fold (planned days t0 us).
  rewrite E0. cbn [app for_each]. unfold bind.
  rewrite process_user_recent, E1, Es.
  destruct (write_and_log save_fails (set_expiry_date days r0) w)
    as [[] w1| |] eqn:Ew; trivial.
  apply IH.
  - apply (write_same_columns (set_expiry_date days r0) w w1); trivial.
    exists r0. split; [|reflexivity]. now apply recent_spec in E0.
  - intros u' Hu'. apply Hus. now right.
Qed.

(** The loop writes the planned rows of the users of its windows, window
    after window; it runs out of fuel exactly when the fuel is less than
    the number of windows. *)
Lemma while_loop_planned batch_size mx :
  0 < batch_size ->
  forall fuel start w,
    same_columns t0 w ->
    while_loop days save_fails fuel batch_size mx start (start + batch_size) w
    = bind
        (for_each
           (planned days t0
              (scheduled t0
                 (batches (Nat.min fuel (iterations_from batch_size mx start))
                    batch_size start)))
           (write_and_log save_fails))
        (fun _ =>
           if (fuel <? iterations_from batch_size mx start)%nat
           then (fun _ => OutOfFuel) else ret tt)
        w.
Proof.
  intros Hb. induction fuel as [|fuel IH]; intros start w Hw.
  - cbn [while_loop Nat.min batches]. unfold iterations_from.
    destruct (start <=? mx); reflexivity.
  - cbn [while_loop]. destruct (Z.leb_spec start mx) as [Hs|Hs].
    + rewrite (iterations_from_step batch_size mx start Hb Hs).
      cbn [Nat.min batches]. rewrite scheduled_cons, planned_app.
      rewrite bind_for_each_app.
      change (S fuel <? S ?n)%nat with (fuel <? n)%nat.
      rewrite bind_iterate_users, (users_columns _ (db w) t0 Hw).
      change (values_user_id_distinct _ t0)
        with (users_of_batch t0 (start, start + batch_size)).
      apply bind_congr.
      * apply for_each_process; trivial.
        intros u Hu. apply users_of_batch_In in Hu as [_ Hx].
        now apply recent_exists.
      * intros [] w1 E. apply IH.
        rewrite for_each_process in E.
        -- eapply for_each_write_same_columns; [exact Hw| |exact E].
           apply planned_rows.
        -- trivial.
        -- intros u Hu. apply users_of_batch_In in Hu as [_ Hx].
           now apply recent_exists.
    + unfold iterations_from. destruct (Z.leb_spec start mx); [lia|].
      reflexivity.
Qed.

End Run.

(** ** The head of [handle] *)

Lemma handle_bounds_some days save_fails fuel batch_size w mx mn :
  bounds (db w) = Some (mx, mn) ->
  handle days save_fails fuel batch_size w
  = while_loop days save_fails fuel batch_size mx mn (mn + batch_size) w.
Proof.
  unfold bounds, handle, try_except, first_batch, bind, index0, ret, raise.
  destruct (rows sspv (db w)) as [|r_max ?]; [discriminate|].
  destruct (rows (reverse sspv) (db w)) as [|r_min ?]; [discriminate|].
  now intros [= <- <-].
Qed.

Lemma handle_bounds_none days save_fails fuel batch_size w :
  bounds (db w) = None ->
  handle days save_fails fuel batch_size w
  = Val tt {| db := db w;
              trace := trace w ++ [ev_log INFO (msg_text no_entries)] |}.
Proof.
  unfold bounds, handle, try_except, first_batch, bind, index0, ret, raise.
  destruct (rows sspv (db w)) as [|r_max ?]; [reflexivity|].
  destruct (rows (reverse sspv) (db w)) as [|r_min ?]; [reflexivity|].
  discriminate.
Qed.

Lemma bounds_none t :
  bounds t = None <-> forall x, In x t -> approved x = false.
Proof.
  unfold bounds. split.
  - intros H x Hx. destruct (approved x) eqn:Ha; [|reflexivity].
    assert (H1 : In x (rows sspv t))
      by (apply rows_In; now rewrite selects_sspv).
    assert (H2 : In x (rows (reverse sspv) t))
      by (apply rows_In; now rewrite selects_reverse_sspv).
    destruct (rows sspv t); [easy|].
    destruct (rows (reverse sspv) t); [easy|discriminate].
  - intros H. destruct (rows sspv t) as [|r l] eqn:E; [reflexivity|].
    assert (Hr : In r (rows sspv t)) by (rewrite E; now left).
    apply rows_In in Hr as [Hr Hs]. rewrite selects_sspv in Hs.
    rewrite (H r Hr) in Hs. discriminate.
Qed.

Lemma bounds_some t mx mn :
  bounds t = Some (mx, mn) ->
  (exists r, In r t /\ approved r = true /\ user_id r = mx)
  /\ (exists r, In r t /\ approved r = true /\ user_id r = mn)
  /\ forall x, In x t -> approved x = true -> mn <= user_id x <= mx.
Proof.
  unfold bounds.
  destruct (rows sspv t) as [|r_max l1] eqn:E1; [discriminate|].
  destruct (rows (reverse sspv) t) as [|r_min l2] eqn:E2; [discriminate|].
  intros [= <- <-].
  assert (H1 : In r_max (rows sspv t)) by (rewrite E1; now left).
  assert (H2 : In r_min (rows (reverse sspv) t)) by (rewrite E2; now left).
  apply rows_In in H1 as [H1 S1]. rewrite selects_sspv in S1.
  apply rows_In in H2 as [H2 S2]. rewrite selects_reverse_sspv in S2.
  split; [now exists r_max|]. split; [now exists r_min|].
  intros x Hx Ha.
  assert (Hf : In x (filter (selects sspv) t))
    by (apply filter_In; now rewrite selects_sspv).
  unfold rows in E1, E2. simpl order in E1, E2. cbn [apply_order negb] in E1, E2.
  pose proof (sort_by_head true f_user_id _ _ _ E1 x Hf) as B1.
  pose proof (sort_by_head false f_user_id _ _ _ E2 x Hf) as B2.
  simpl in B1, B2. lia.
Qed.

(** ** Runs on which no write is refused *)

Lemma for_each_write_never rs w :
  for_each rs (write_and_log never_fails) w
  = Val tt {| db := write_rows rs (db w);
              trace := trace w ++ flat_map write_events rs |}.
Proof.
  revert w. induction rs as [|r rs IH]; intros [t tr].
  - simpl. unfold ret. now rewrite app_nil_r.
  - cbn [for_each]. unfold bind, write_and_log at 1, bind, save, log.
    cbn [never_fails db trace]. rewrite IH. cbn [db trace write_rows fold_left].
    cbn [flat_map write_events]. now rewrite <- !app_assoc.
Qed.

Section Populate.

Variable days : Z.
Variable t0 : table.
Hypothesis t0_unique : unique_ids t0.

Lemma touch_columns ids : keeps_columns (touch days ids).
Proof. intros x. unfold touch. now destruct (existsb _ ids). Qed.

Lemma touch_touch i ids x :
  touch days ids (touch days [i] x) = touch days (i :: ids) x.
Proof.
  unfold touch. cbn [existsb]. rewrite orb_false_r.
  destruct (id x =? i); cbn [orb].
  - cbn [set_expiry_date id]. now destruct (existsb _ ids).
  - reflexivity.
Qed.

Lemma write_rows_touch rs :
  forall t,
    map columns t = map columns t0 ->
    (forall r, In r rs -> exists x, In x t0 /\ r = set_expiry_date days x) ->
    write_rows rs t = map (touch days (map id rs)) t.
Proof.
  induction rs as [|r rs IH]; intros t Ht Hrs.
  - cbn [write_rows fold_left map]. unfold touch. cbn [existsb].
    now rewrite map_id.
  - destruct (Hrs r (or_introl eq_refl)) as (x0 & Hx0 & ->).
    assert (Hu : unique_ids t)
      by (unfold unique_ids; now rewrite (map_id_columns _ _ Ht)).
    assert (Hy : exists y, In y t /\ columns y = columns x0).
    { apply (in_map columns) in Hx0. rewrite <- Ht in Hx0.
      apply in_map_iff in Hx0 as (y & E & Hy). now exists y. }
    destruct Hy as (y & Hy & Ey).
    destruct (write_row_update (set_expiry_date days x0) t Hu) as [W _];
      [now exists y|].
    assert (W' : write_row (set_expiry_date days x0) t
                 = map (touch days [id x0]) t).
    { rewrite W. apply map_ext_in. intros z Hz. unfold touch.
      cbn [existsb id set_expiry_date]. rewrite orb_false_r.
      destruct (id z =? id x0) eqn:E; [|reflexivity].
      apply Z.eqb_eq in E.
      assert (z = y).
      { apply (NoDup_map_eq id t); trivial.
        apply columns_fields in Ey. rewrite E. symmetry. tauto. }
      subst z. symmetry. now apply set_expiry_date_congr. }
    cbn [write_rows fold_left]. fold (write_rows rs).
    rewrite W', IH.
    + rewrite map_map. apply map_ext. intros z.
      cbn [map set_expiry_date id]. apply touch_touch.
    + rewrite <- Ht, map_map. apply map_ext. intros z. apply touch_columns.
    + intros r Hr. apply Hrs. now right.
Qed.

Lemma planned_In us r :
  In r (planned days t0 us)
  <-> exists u x, In u us /\ recent t0 u = Some x /\ r = set_expiry_date days x.
Proof.
  unfold planned. rewrite in_flat_map. split.
  - intros (u & Hu & Hr). destruct (recent t0 u) as [x|] eqn:E; [|easy].
    destruct Hr as [<-|[]]. now exists u, x.
  - intros (u & x & Hu & E & ->). exists u. rewrite E. split; [easy|now left].
Qed.

Lemma recent_self x r :
  In x t0 -> recent t0 (user_id x) = Some r -> id r = id x -> r = x.
Proof.
  intros Hx E Hid. apply recent_spec in E as (Hr & _).
  now apply (NoDup_map_eq id t0).
Qed.

(** Once every approved user has been processed, the table is the
    populated one. *)
Lemma touch_planned us x :
  (forall y, In y t0 -> approved y = true -> In (user_id y) us) ->
  In x t0 ->
  existsb (Z.eqb (id x)) (map id (planned days t0 us)) = is_recent t0 x.
Proof.
  intros Hcov Hx. apply eq_true_iff_eq. unfold is_recent.
  rewrite existsb_exists. split.
  - intros (i & Hi & E). apply Z.eqb_eq in E. subst i.
    apply in_map_iff in Hi as (r & Hid & Hr).
    apply planned_In in Hr as (u & r0 & Hu & E0 & ->).
    cbn [id set_expiry_date] in Hid.
    pose proof (recent_spec _ _ _ E0) as (Hr0 & _ & Hu0 & _).
    assert (r0 = x) by now apply (NoDup_map_eq id t0).
    subst r0. rewrite Hu0, E0. apply Z.eqb_refl.
  - destruct (recent t0 (user_id x)) as [r|] eqn:E; [|discriminate].
    intros Hid. apply Z.eqb_eq in Hid.
    assert (r = x) by now apply recent_self. subst r.
    pose proof (recent_spec _ _ _ E) as (_ & Ha & _).
    exists (id x). split; [|apply Z.eqb_refl].
    apply in_map_iff. exists (set_expiry_date days x). split; [reflexivity|].
    apply planned_In. exists (user_id x), x. auto.
Qed.

Lemma write_rows_planned us :
  (forall y, In y t0 -> approved y = true -> In (user_id y) us) ->
  write_rows (planned days t0 us) t0 = populate days t0.
Proof.
  intros Hcov. rewrite write_rows_touch; trivial.
  - unfold populate. apply map_ext_in. intros x Hx.
    unfold touch, populate_row. now rewrite touch_planned.
  - intros r Hr. apply planned_In in Hr as (u & x & _ & E & ->).
    exists x. split; [|reflexivity]. now apply recent_spec in E.
Qed.

Lemma populate_no_entries :
  bounds t0 = None -> populate days t0 = t0.
Proof.
  intros H. unfold populate. rewrite <- (map_id t0) at 3.
  apply map_ext_in. intros x Hx. unfold populate_row, is_recent.
  destruct (recent t0 (user_id x)) as [r|] eqn:E; [|reflexivity].
  apply recent_spec in E as (Hr & Ha & _).
  rewrite (proj1 (bounds_none t0) H r Hr) in Ha. discriminate.
Qed.

Lemma run_users_cover batch_size y :
  0 < batch_size -> In y t0 -> approved y = true ->
  In (user_id y) (run_users t0 batch_size).
Proof.
  intros Hb Hy Ha. unfold run_users, run_batches.
  destruct (bounds t0) as [[mx mn]|] eqn:E.
  - apply scheduled_In; trivial. split; [|now exists y].
    apply bounds_some in E as (_ & _ & B). specialize (B y Hy Ha).
    pose proof (iterations_from_bound batch_size mx mn Hb). lia.
  - rewrite (proj1 (bounds_none t0) E y Hy) in Ha. discriminate.
Qed.

(** What a complete run does when no write is refused. *)
Lemma handle_run fuel batch_size tr :
  0 < batch_size ->
  (iterations t0 batch_size <= fuel)%nat ->
  handle days never_fails fuel batch_size {| db := t0; trace := tr |}
  = Val tt {| db := populate days t0;
              trace := tr ++ run_events days t0 batch_size |}.
Proof.
  intros Hb Hf. unfold iterations in Hf.
  pose proof (run_users_cover batch_size) as Hcov.
  unfold run_events, run_users, run_batches in *.
  destruct (bounds t0) as [[mx mn]|] eqn:E.
  - rewrite (handle_bounds_some _ _ _ _ {| db := t0; trace := tr |} mx mn E).
    rewrite (while_loop_planned days never_fails t0 t0_unique); trivial;
      [|reflexivity].
    rewrite Nat.min_r by lia.
    replace (fuel <? iterations_from batch_size mx mn)%nat with false
      by (symmetry; apply Nat.ltb_ge; lia).
    unfold bind. rewrite for_each_write_never. unfold ret. cbn [db trace].
    rewrite write_rows_planned; [reflexivity|]. intros y Hy Ha. now apply Hcov.
  - rewrite (handle_bounds_none _ _ _ _ {| db := t0; trace := tr |} E).
    cbn [db trace].
    now rewrite populate_no_entries.
Qed.

(** With less fuel than windows the loop has not finished. *)
Lemma handle_out_of_fuel fuel batch_size tr :
  0 < batch_size ->
  (fuel < iterations t0 batch_size)%nat ->
  handle days never_fails fuel batch_size {| db := t0; trace := tr |}
  = OutOfFuel.
Proof.
  intros Hb Hf. unfold iterations in Hf.
  destruct (bounds t0) as [[mx mn]|] eqn:E; [|lia].
  rewrite (handle_bounds_some _ _ _ _ {| db := t0; trace := tr |} mx mn E).
  rewrite (while_loop_planned days never_fails t0 t0_unique); trivial;
    [|reflexivity].
  unfold bind. rewrite for_each_write_never.
  now replace (fuel <? iterations_from batch_size mx mn)%nat with true
    by (symmetry; apply Nat.ltb_lt; lia).
Qed.

End Populate.

(** ** The populated table *)

Lemma populate_row_columns days t : keeps_columns (populate_row days t).
Proof. intros x. unfold populate_row. now destruct (is_recent t x). Qed.

Lemma populate_columns days t :
  map columns (populate days t) = map columns t.
Proof.
  unfold populate. rewrite map_map. apply map_ext, populate_row_columns.
Qed.

Lemma populate_unique days t : unique_ids t -> unique_ids (populate days t).
Proof.
  unfold unique_ids. now rewrite (map_id_columns _ _ (populate_columns days t)).
Qed.

Lemma approved_columns x y : columns x = columns y -> approved x = approved y.
Proof.
  intros H. apply columns_fields in H. unfold approved.
  now replace (status x) with (status y) by (symmetry; tauto).
Qed.

Lemma recent_map g t u :
  keeps_columns g -> recent (map g t) u = option_map g (recent t u).
Proof.
  intros Hg. unfold recent. rewrite rows_map by exact Hg.
  now destruct (rows _ t).
Qed.

Lemma is_recent_map g t x :
  keeps_columns g -> is_recent (map g t) (g x) = is_recent t x.
Proof.
  intros Hg. unfold is_recent.
  pose proof (columns_fields _ _ (Hg x)) as (Hi & Hu & _).
  rewrite Hu, recent_map by exact Hg.
  destruct (recent t (user_id x)) as [r|]; [|reflexivity].
  cbn [option_map]. pose proof (columns_fields _ _ (Hg r)) as (Hr & _).
  now rewrite Hi, Hr.
Qed.

Lemma bounds_map g t : keeps_columns g -> bounds (map g t) = bounds t.
Proof.
  intros Hg. unfold bounds. rewrite !rows_map by exact Hg.
  destruct (rows sspv t) as [|a l]; [reflexivity|].
  destruct (rows (reverse sspv) t) as [|b l']; [reflexivity|].
  cbn [map].
  pose proof (columns_fields _ _ (Hg a)) as (_ & -> & _).
  now pose proof (columns_fields _ _ (Hg b)) as (_ & -> & _).
Qed.

Lemma iterations_populate days t batch_size :
  iterations (populate days t) batch_size = iterations t batch_size.
Proof.
  unfold iterations, populate.
  now rewrite bounds_map by apply populate_row_columns.
Qed.

Lemma populate_idem days t : populate days (populate days t) = populate days t.
Proof.
  unfold populate at 1 3. unfold populate at 2. rewrite map_map.
  apply map_ext. intros x. unfold populate_row at 1.
  fold (populate days t). unfold populate.
  rewrite is_recent_map by apply populate_row_columns.
  unfold populate_row. destruct (is_recent t x); reflexivity.
Qed.

Lemma is_recent_row t u r :
  unique_ids t -> recent t u = Some r -> is_recent t r = true.
Proof.
  intros _ E. unfold is_recent.
  pose proof (recent_spec _ _ _ E) as (_ & _ & -> & _).
  rewrite E. apply Z.eqb_refl.
Qed.

Lemma is_recent_max t x :
  unique_ids t -> In x t -> is_recent t x = true ->
  approved x = true
  /\ forall y, In y t -> approved y = true -> user_id y = user_id x ->
       updated_at y <= updated_at x.
Proof.
  intros Hu Hx H. unfold is_recent in H.
  destruct (recent t (user_id x)) as [r|] eqn:E; [|discriminate].
  apply Z.eqb_eq in H.
  assert (r = x) by now apply (recent_self t Hu).
  subst r. apply recent_spec in E as (_ & Ha & _ & Hm). auto.
Qed.

Ltac unique_ids_by_computation :=
  unfold unique_ids; simpl;
  repeat (constructor; [simpl; intuition congruence|]); constructor.

(** ** The sample table, run *)

(** The run of the spec's example: of the two approved rows of user 42 the
    one updated on day 5 expires 365 days later and the one updated on
    day 1 is as it was; the denied row of user 7 is as it was. *)
Example sample_run :
  handle 365 never_fails 2 1000 sample_world
  = Val tt
      {| db :=
           [ {| id := 1; user_id := 42; status := "approved";
                updated_at := 1 * day; expiry_date := None |};
             {| id := 2; user_id := 42; status := "approved";
                updated_at := 5 * day; expiry_date := Some (370 * day) |};
             {| id := 3; user_id := 7; status := "denied";
                updated_at := 2 * day; expiry_date := None |};
             {| id := 4; user_id := 1042; status := "approved";
                updated_at := 3 * day; expiry_date := Some (368 * day) |} ];
         trace :=
           [ ev_save {| id := 2; user_id := 42; status := "approved";
                        updated_at := 5 * day;
                        expiry_date := Some (370 * day) |};
             ev_log WARNING (msg_datetime (5 * day));
             ev_save {| id := 4; user_id := 1042; status := "approved";
                        updated_at := 3 * day;
                        expiry_date := Some (368 * day) |};
             ev_log WARNING (msg_datetime (3 * day)) ] |}.
Proof. reflexivity. Qed.

(** One unit of fuel is not enough for the two windows of that run. *)
Example sample_run_one_iteration :
  handle 365 never_fails 1 1000 sample_world = OutOfFuel.
Proof. reflexivity. Qed.

(** The same run on a database that refuses the second write: the exception
    leaves [handle] with the first write done and nothing after the refused
    one. *)
Example sample_run_interrupted :
  handle 365 second_write_fails 2 1000 sample_world
  = Exc DatabaseError interrupted_world.
Proof. reflexivity. Qed.

(** A batch size that is not positive never gets the loop past the maximum:
    [handle] does not return. *)
Lemma while_loop_nonpositive days save_fails batch_size mx :
  batch_size <= 0 ->
  forall fuel start stop w w',
    start <= mx -> stop <= mx ->
    while_loop days save_fails fuel batch_size mx start stop w <> Val tt w'.
Proof.
  intros Hb. induction fuel as [|fuel IH]; intros start stop w w' Hs Ht;
    cbn [while_loop]; destruct (Z.leb_spec start mx); try lia;
    [discriminate|].
  unfold bind at 1. cbn [iterate_users]. unfold bind.
  destruct (for_each _ _ w); [apply IH; lia|discriminate|discriminate].
Qed.

Lemma handle_nonpositive_batch_size days save_fails batch_size fuel w w' :
  batch_size <= 0 ->
  (exists x, In x (db w) /\ approved x = true) ->
  handle days save_fails fuel batch_size w <> Val tt w'.
Proof.
  intros Hb (x & Hx & Ha).
  destruct (bounds (db w)) as [[mx mn]|] eqn:E.
  - rewrite (handle_bounds_some _ _ _ _ w mx mn E).
    apply bounds_some in E as (_ & _ & Hr). specialize (Hr x Hx Ha).
    apply while_loop_nonpositive; lia.
  - rewrite (proj1 (bounds_none _) E x Hx) in Ha. discriminate.
Qed.

(** ** Termination *)

Lemma process_user_total days save_fails u w :
  process_user days save_fails u w <> OutOfFuel.
Proof.
  unfold process_user, find_recent_verification, latest, bind, save, log,
    ret, raise.
  destruct (rows _ (db w)); [discriminate|].
  now destruct (save_fails _ _).
Qed.

Lemma for_each_process_total days save_fails us w :
  for_each us (process_user days save_fails) w <> OutOfFuel.
Proof.
  revert w. induction us as [|u us IH]; intros w; [discriminate|].
  cbn [for_each]. unfold bind.
  pose proof (process_user_total days save_fails u w).
  destruct (process_user days save_fails u w); [apply IH|discriminate|easy].
Qed.

Lemma while_loop_exit days save_fails fuel batch_size mx start stop w :
  mx < start ->
  while_loop days save_fails fuel batch_size mx start stop w = Val tt w.
Proof.
  intros H. destruct fuel; cbn [while_loop];
    now destruct (Z.leb_spec start mx); [lia|].
Qed.

Lemma while_loop_step days save_fails fuel batch_size mx start stop w :
  start <= mx ->
  while_loop days save_fails (S fuel) batch_size mx start stop w
  = bind (users <- iterate_users (batch_queryset start stop) ;;
          for_each users (process_user days save_fails))
      (fun _ => while_loop days save_fails fuel batch_size mx
                  stop (stop + batch_size)) w.
Proof.
  intros H. cbn [while_loop]. destruct (Z.leb_spec start mx); [|lia].
  now rewrite bind_assoc.
Qed.

Lemma while_loop_terminates days save_fails batch_size mx :
  0 < batch_size ->
  forall fuel start w,
    (iterations_from batch_size mx start <= fuel)%nat ->
    while_loop days save_fails fuel batch_size mx start (start + batch_size) w
    <> OutOfFuel.
Proof.
  intros Hb. induction fuel as [|fuel IH]; intros start w Hf.
  - destruct (Z.leb_spec start mx) as [Hs|Hs].
    + rewrite (iterations_from_step _ _ _ Hb Hs) in Hf. lia.
    + now rewrite while_loop_exit.
  - destruct (Z.leb_spec start mx) as [Hs|Hs].
    + rewrite while_loop_step by exact Hs.
      rewrite (iterations_from_step _ _ _ Hb Hs) in Hf.
      unfold bind at 1. rewrite bind_iterate_users.
      pose proof (for_each_process_total days save_fails
        (values_user_id_distinct
           (batch_queryset start (start + batch_size)) (db w)) w).
      destruct (for_each _ _ w); [apply IH; lia|discriminate|easy].
    + now rewrite while_loop_exit.
Qed.

Lemma iterations_from_lt batch_size mx start k :
  0 < batch_size ->
  (k < iterations_from batch_size mx start)%nat
  <-> start + Z.of_nat k * batch_size <= mx.
Proof.
  intros Hb. unfold iterations_from.
  destruct (Z.leb_spec start mx) as [Hs|Hs]; [|split; [lia|nia]].
  pose proof (Z.mod_pos_bound (mx - start) batch_size Hb).
  pose proof (Z.div_mod (mx - start) batch_size).
  assert (0 <= (mx - start) / batch_size) by (apply Z.div_pos; lia).
  rewrite Nat.lt_succ_r. split; intros Hk.
  - assert (Z.of_nat k <= (mx - start) / batch_size) by lia. nia.
  - assert (Z.of_nat k <= (mx - start) / batch_size) by nia. lia.
Qed.

(** ** Refused writes *)

(** The first write the database refuses ends the loop over the rows: the
    rows before it are written, the exception leaves with the world as it
    is then. *)
Lemma for_each_write_refused save_fails rs :
  forall k r w,
    nth_error rs k = Some r ->
    (forall j r', (j < k)%nat -> nth_error rs j = Some r' ->
       save_fails (trace w ++ flat_map write_events (firstn j rs)) r' = false) ->
    save_fails (trace w ++ flat_map write_events (firstn k rs)) r = true ->
    for_each rs (write_and_log save_fails) w
    = Exc DatabaseError
        {| db := write_rows (firstn k rs) (db w);
           trace := trace w ++ flat_map write_events (firstn k rs)
                      ++ [ev_save_failed r] |}.
Proof.
  induction rs as [|a rs IH]; intros k r w Hk Hok Hfail.
  - now destruct k.
  - destruct k as [|k].
    + injection Hk as ->. cbn [firstn flat_map] in Hfail.
      rewrite app_nil_r in Hfail.
      cbn [for_each firstn flat_map write_rows fold_left app].
      unfold bind, write_and_log, bind, save. now rewrite Hfail.
    + cbn [nth_error] in Hk.
      pose proof (Hok 0%nat a (Nat.lt_0_succ k) eq_refl) as H0.
      cbn [firstn flat_map] in H0. rewrite app_nil_r in H0.
      cbn [for_each]. unfold bind at 1.
      unfold write_and_log at 1, bind, save, log. rewrite H0. cbn [db trace].
      rewrite (IH k r); cbn [db trace]; trivial.
      * cbn [firstn flat_map write_rows fold_left write_events].
        now rewrite <- !app_assoc.
      * intros j r' Hj Hr'.
        specialize (Hok (S j) r' (proj1 (Nat.succ_lt_mono j k) Hj) Hr').
        cbn [firstn flat_map write_events] in Hok.
        now rewrite <- !app_assoc.
      * cbn [firstn flat_map write_events] in Hfail.
        now rewrite <- !app_assoc.
Qed.

Lemma In_firstn {A} (n : nat) (l : list A) x : In x (firstn n l) -> In x l.
Proof.
  intros H. rewrite <- (firstn_skipn n l). apply in_or_app. now left.
Qed.

Lemma touch_In days t ids x :
  In x t -> In (id x) ids ->
  In (set_expiry_date days x) (map (touch days ids) t).
Proof.
  intros Hx Hi. apply in_map_iff. exists x. split; [|easy]. unfold touch.
  replace (existsb (Z.eqb (id x)) ids) with true; [reflexivity|].
  symmetry. apply existsb_exists. exists (id x). split; [easy|apply Z.eqb_refl].
Qed.

(** Either no element below [n] satisfies [p], or there is a first one. *)
Lemma first_true (p : nat -> bool) n :
  (forall k, (k < n)%nat -> p k = false)
  \/ exists k, (k < n)%nat /\ p k = true
               /\ forall j, (j < k)%nat -> p j = false.
Proof.
  induction n as [|n [IH|IH]].
  - left. intros k Hk. lia.
  - destruct (p n) eqn:E.
    + right. exists n. repeat split; [lia|exact E|]. intros j Hj. apply IH, Hj.
    + left. intros k Hk.
      destruct (Nat.eq_dec k n) as [->|Hn]; [exact E|apply IH; lia].
  - right. destruct IH as (k & Hk & Hp & Hj). exists k.
    repeat split; trivial. lia.
Qed.

(** When the database accepts every write it is asked for, the loop over
    the rows writes them all. *)
Lemma for_each_write_accepted save_fails rs :
  forall w,
    (forall k r, nth_error rs k = Some r ->
       save_fails (trace w ++ flat_map write_events (firstn k rs)) r = false) ->
    for_each rs (write_and_log save_fails) w
    = Val tt {| db := write_rows rs (db w);
                trace := trace w ++ flat_map write_events rs |}.
Proof.
  induction rs as [|a rs IH]; intros w Hok.
  - cbn [for_each flat_map write_rows fold_left]. unfold ret.
    rewrite app_nil_r. now destruct w.
  - pose proof (Hok 0%nat a eq_refl) as H0.
    cbn [firstn flat_map] in H0. rewrite app_nil_r in H0.
    cbn [for_each]. unfold bind at 1.
    unfold write_and_log at 1, bind, save, log. rewrite H0. cbn [db trace].
    rewrite IH; cbn [db trace].
    + cbn [flat_map write_rows fold_left write_events].
      now rewrite <- !app_assoc.
    + intros k r Hk. specialize (Hok (S k) r Hk).
      cbn [firstn flat_map write_events] in Hok.
      now rewrite <- !app_assoc.
Qed.

Lemma nth_error_firstn_split {A} (l : list A) k x :
  nth_error l k = Some x -> exists l2, l = firstn k l ++ x :: l2.
Proof.
  revert l. induction k as [|k IH]; intros [|a l] H; try discriminate.
  - injection H as ->. now exists l.
  - cbn [nth_error] in H. destruct (IH l H) as (l2 & E). exists l2.
    cbn [firstn app]. now rewrite <- E.
Qed.

Lemma NoDup_firstn_nth {A} (l : list A) k x :
  NoDup l -> nth_error l k = Some x ->
  NoDup (firstn k l) /\ ~ In x (firstn k l).
Proof.
  intros Hn Hk. destruct (nth_error_firstn_split l k x Hk) as (l2 & E).
  rewrite E in Hn. split.
  - now apply NoDup_app_remove_r in Hn.
  - apply NoDup_remove_2 in Hn. intros Hin. apply Hn, in_or_app. now left.
Qed.

Lemma NoDup_firstn {A} (l : list A) k : NoDup l -> NoDup (firstn k l).
Proof.
  intros Hn. rewrite <- (firstn_skipn k l) in Hn.
  now apply NoDup_app_remove_r in Hn.
Qed.

Lemma planned_row_recent days t us r :
  In r (planned days t us) ->
  exists r0, recent t (user_id r) = Some r0 /\ r = set_expiry_date days r0.
Proof.
  unfold planned. rewrite in_flat_map. intros (u & _ & Hr).
  destruct (recent t u) as [r0|] eqn:E; [|easy].
  destruct Hr as [<-|[]]. exists r0. split; [|reflexivity].
  cbn [user_id set_expiry_date].
  now pose proof (recent_spec _ _ _ E) as (_ & _ & -> & _).
Qed.

Lemma run_users_recent t batch_size u :
  0 < batch_size -> In u (run_users t batch_size) ->
  exists r, recent t u = Some r.
Proof.
  intros Hb Hin. unfold run_users, run_batches in Hin.
  destruct (bounds t) as [[mx mn]|]; [|easy].
  apply scheduled_In in Hin as [_ Hx]; trivial. now apply recent_exists.
Qed.

Lemma run_users_NoDup t batch_size :
  0 < batch_size -> NoDup (run_users t batch_size).
Proof.
  intros Hb. unfold run_users, run_batches.
  destruct (bounds t) as [[mx mn]|]; [|constructor].
  now apply scheduled_NoDup.
Qed.

(** A run as a loop over the rows to write. *)
Lemma handle_planned days save_fails t tr fuel batch_size :
  unique_ids t ->
  0 < batch_size ->
  (iterations t batch_size <= fuel)%nat ->
  (exists x, In x t /\ approved x = true) ->
  handle days save_fails fuel batch_size {| db := t; trace := tr |}
  = for_each (planned days t (run_users t batch_size))
      (write_and_log save_fails) {| db := t; trace := tr |}.
Proof.
  intros Hu Hb Hf (x & Hx & Ha). unfold iterations in Hf.
  unfold run_users, run_batches.
  destruct (bounds t) as [[mx mn]|] eqn:E.
  - rewrite (handle_bounds_some _ _ _ _ {| db := t; trace := tr |} mx mn E).
    rewrite (while_loop_planned days save_fails t Hu); trivial; [|reflexivity].
    rewrite Nat.min_r by lia.
    replace (fuel <? iterations_from batch_size mx mn)%nat with false
      by (symmetry; apply Nat.ltb_ge; lia).
    unfold bind, ret. now destruct (for_each _ _ _) as [[] ?| |].
  - rewrite (proj1 (bounds_none t) E x Hx) in Ha. discriminate.
Qed.

(** ** Windows *)

Lemma batches_nth n batch_size start i a b :
  nth_error (batches n batch_size start) i = Some (a, b)
  <-> (i < n)%nat /\ a = start + Z.of_nat i * batch_size /\ b = a + batch_size.
Proof.
  revert start i. induction n as [|n IH]; intros start i.
  - destruct i; simpl; split; try discriminate; lia.
  - destruct i as [|i]; cbn [batches nth_error].
    + split.
      * intros [= <- <-]. lia.
      * intros (_ & -> & ->). do 2 f_equal; lia.
    + rewrite IH. split; intros (H1 & H2 & H3); (split; [lia|split; lia]).
Qed.

Lemma saved_users_writes rs :
  saved_users (flat_map write_events rs) = map user_id rs.
Proof.
  induction rs as [|r rs IH]; [reflexivity|].
  cbn [flat_map write_events map]. unfold saved_users in *.
  rewrite flat_map_app, IH. reflexivity.
Qed.

Lemma planned_users days t us :
  (forall u, In u us -> exists r, recent t u = Some r) ->
  map user_id (planned days t us) = us.
Proof.
  induction us as [|u us IH]; intros H; [reflexivity|].
  unfold planned. cbn [flat_map]. fold (planned days t us).
  destruct (H u (or_introl eq_refl)) as (r & E). rewrite E.
  cbn [app map set_expiry_date user_id].
  apply recent_spec in E as (_ & _ & -> & _).
  f_equal. apply IH. intros u' Hu'. apply H. now right.
Qed.

Lemma NoDup_count_one (l : list Z) u :
  NoDup l -> In u l -> count_occ Z.eq_dec l u = 1%nat.
Proof.
  intros Hn Hi. pose proof (proj1 (NoDup_count_occ Z.eq_dec l) Hn u).
  pose proof (proj1 (count_occ_In Z.eq_dec l u) Hi). lia.
Qed.

Lemma users_of_batches t bs :
  Forall2
    (fun us b =>
       NoDup us
       /\ forall u,
            In u us
            <-> fst b <= u < snd b
                /\ exists x, In x t /\ approved x = true /\ user_id x = u)
    (map (users_of_batch t) bs) bs.
Proof.
  induction bs as [|b bs IH]; constructor; [|exact IH].
  split; [apply distinct_NoDup|]. intros u. apply users_of_batch_In.
Qed.

(** * The claims *)

(** C1.  After a complete run, for every user with at least one approved
    record, the approved record of that user with the largest [updated_at]
    has [expiry_date = updated_at + DAYS_GOOD_FOR days]: the table holds an
    approved record of the user that no approved record of the user exceeds
    in [updated_at] and that carries this expiry date (the one
    [find_recent_verification] picks), and an approved record of the user
    that is later than all the others carries it. *)
Theorem C1_latest_approved_has_expiry days t batch_size fuel tr u :
  unique_ids t ->
  0 < batch_size ->
  (iterations t batch_size <= fuel)%nat ->
  (exists x, In x t /\ approved x = true /\ user_id x = u) ->
  exists w',
    handle days never_fails fuel batch_size {| db := t; trace := tr |}
    = Val tt w'
    /\ (exists r,
          In r (db w') /\ approved r = true /\ user_id r = u
          /\ (forall x, In x (db w') -> approved x = true -> user_id x = u ->
                updated_at x <= updated_at r)
          /\ expiry_date r = Some (updated_at r + timedelta_days days))
    /\ (forall x,
          In x (db w') -> approved x = true -> user_id x = u ->
          (forall y, In y (db w') -> approved y = true -> user_id y = u ->
             id y <> id x -> updated_at y < updated_at x) ->
          expiry_date x = Some (updated_at x + timedelta_days days)).
Proof.
  intros Hu Hb Hf Hex. eexists. split; [now apply handle_run|]. cbn [db].
  destruct (recent_exists t u Hex) as (r0 & E).
  pose proof (recent_spec _ _ _ E) as (Hr0 & Ha0 & Hu0 & Hm0).
  assert (Hin : In (set_expiry_date days r0) (populate days t)).
  { unfold populate. apply in_map_iff. exists r0. split; [|easy].
    unfold populate_row. now rewrite (is_recent_row t u r0). }
  assert (Hmax : forall x, In x (populate days t) -> approved x = true ->
                   user_id x = u -> updated_at x <= updated_at r0).
  { intros x Hx Ha Hxu. unfold populate in Hx.
    apply in_map_iff in Hx as (x0 & <- & Hx0).
    pose proof (populate_row_columns days t x0) as Hc.
    rewrite (approved_columns _ _ Hc) in Ha.
    apply columns_fields in Hc as (_ & Hc2 & _ & Hc4).
    rewrite Hc4. apply Hm0; congruence. }
  split.
  - exists (set_expiry_date days r0). repeat split; trivial.
  - intros x Hx Ha Hxu Hstrict.
    destruct (Z.eq_dec (id (set_expiry_date days r0)) (id x)) as [Hid|Hid].
    + assert (set_expiry_date days r0 = x).
      { apply (NoDup_map_eq id (populate days t)); trivial.
        now apply populate_unique. }
      now subst x.
    + specialize (Hstrict _ Hin Ha0 Hu0 Hid). specialize (Hmax x Hx Ha Hxu).
      cbn [updated_at set_expiry_date] in Hstrict. lia.
Qed.

Lemma C1_latest_approved_has_expiry_witness :
  unique_ids sample_table /\ 0 < 1000
  /\ (iterations sample_table 1000 <= 2)%nat
  /\ (exists x, In x sample_table /\ approved x = true /\ user_id x = 42)
  /\ exists w',
       handle 365 never_fails 2 1000 sample_world = Val tt w'
       /\ (exists r,
             In r (db w') /\ approved r = true /\ user_id r = 42
             /\ (forall x, In x (db w') -> approved x = true ->
                   user_id x = 42 -> updated_at x <= updated_at r)
             /\ expiry_date r = Some (updated_at r + timedelta_days 365))
       /\ (forall x,
             In x (db w') -> approved x = true -> user_id x = 42 ->
             (forall y, In y (db w') -> approved y = true -> user_id y = 42 ->
                id y <> id x -> updated_at y < updated_at x) ->
             expiry_date x = Some (updated_at x + timedelta_days 365)).
Proof.
  assert (H1 : unique_ids sample_table) by unique_ids_by_computation.
  assert (H2 : 0 < 1000) by lia.
  assert (H3 : (iterations sample_table 1000 <= 2)%nat)
    by (vm_compute; lia).
  assert (H4 : exists x, In x sample_table /\ approved x = true
                         /\ user_id x = 42)
    by (eexists; split; [left; reflexivity|split; reflexivity]).
  repeat (split; [assumption|]).
  exact (C1_latest_approved_has_expiry 365 sample_table 1000 2 [] 42
           H1 H2 H3 H4).
Defined.

(** C2.  Running the command a second time on the table the first run left
    changes no record: the table after the second run is the table after the
    first, whatever the (positive) batch sizes of the two runs. *)
Theorem C2_second_run_changes_nothing days t batch_size1 batch_size2
  fuel1 fuel2 tr :
  unique_ids t ->
  0 < batch_size1 -> 0 < batch_size2 ->
  (iterations t batch_size1 <= fuel1)%nat ->
  (iterations t batch_size2 <= fuel2)%nat ->
  exists w1 w2,
    handle days never_fails fuel1 batch_size1 {| db := t; trace := tr |}
    = Val tt w1
    /\ handle days never_fails fuel2 batch_size2 w1 = Val tt w2
    /\ db w2 = db w1.
Proof.
  intros Hu Hb1 Hb2 Hf1 Hf2. do 2 eexists. split; [now apply handle_run|].
  split.
  - apply handle_run; trivial.
    + now apply populate_unique.
    + now rewrite iterations_populate.
  - cbn [db]. apply populate_idem.
Qed.

Lemma C2_second_run_changes_nothing_witness :
  unique_ids sample_table /\ 0 < 1000 /\ 0 < 7
  /\ (iterations sample_table 1000 <= 2)%nat
  /\ (iterations sample_table 7 <= 200)%nat
  /\ exists w1 w2,
       handle 365 never_fails 2 1000 sample_world = Val tt w1
       /\ handle 365 never_fails 200 7 w1 = Val tt w2
       /\ db w2 = db w1.
Proof.
  assert (H1 : unique_ids sample_table) by unique_ids_by_computation.
  assert (H2 : 0 < 1000) by lia.
  assert (H3 : 0 < 7) by lia.
  assert (H4 : (iterations sample_table 1000 <= 2)%nat) by (vm_compute; lia).
  assert (H5 : (iterations sample_table 7 <= 200)%nat) by (vm_compute; lia).
  repeat (split; [assumption|]).
  exact (C2_second_run_changes_nothing 365 sample_table 1000 7 2 200 []
           H1 H2 H3 H4 H5).
Defined.

(** C3.  The table a run leaves does not depend on the batch size: with any
    positive batch size it is the table the run with batch size 1 leaves. *)
Theorem C3_batch_size_independent days t batch_size fuel fuel1 tr :
  unique_ids t ->
  0 < batch_size ->
  (iterations t batch_size <= fuel)%nat ->
  (iterations t 1 <= fuel1)%nat ->
  exists w w1,
    handle days never_fails fuel batch_size {| db := t; trace := tr |}
    = Val tt w
    /\ handle days never_fails fuel1 1 {| db := t; trace := tr |} = Val tt w1
    /\ db w = db w1.
Proof.
  intros Hu Hb Hf Hf1. do 2 eexists.
  split; [now apply handle_run|]. split; [apply handle_run; trivial; lia|].
  reflexivity.
Qed.

Lemma C3_batch_size_independent_witness :
  unique_ids sample_table /\ 0 < 1000
  /\ (iterations sample_table 1000 <= 2)%nat
  /\ (iterations sample_table 1 <= 1001)%nat
  /\ exists w w1,
       handle 365 never_fails 2 1000 sample_world = Val tt w
       /\ handle 365 never_fails 1001 1 sample_world = Val tt w1
       /\ db w = db w1.
Proof.
  assert (H1 : unique_ids sample_table) by unique_ids_by_computation.
  assert (H2 : 0 < 1000) by lia.
  assert (H3 : (iterations sample_table 1000 <= 2)%nat) by (vm_compute; lia).
  assert (H4 : (iterations sample_table 1 <= 1001)%nat) by (vm_compute; lia).
  repeat (split; [assumption|]).
  exact (C3_batch_size_independent 365 sample_table 1000 2 1001 []
           H1 H2 H3 H4).
Defined.

(** C4.  On a table without approved records [handle] returns at once, for
    every batch size, without entering the loop and without raising: the
    table is unchanged and the only effect is the informational log line. *)
Theorem C4_no_approved_records days save_fails fuel batch_size w :
  (forall x, In x (db w) -> approved x = false) ->
  handle days save_fails fuel batch_size w
  = Val tt {| db := db w;
              trace := trace w ++ [ev_log INFO (msg_text no_entries)] |}.
Proof.
  intros H. apply handle_bounds_none. now apply bounds_none.
Qed.

Lemma C4_no_approved_records_witness :
  (forall x, In x denied_table -> approved x = false)
  /\ handle 365 never_fails 0 1000 {| db := denied_table; trace := [] |}
     = Val tt {| db := denied_table;
                 trace := [ev_log INFO (msg_text no_entries)] |}.
Proof.
  assert (H : forall x, In x denied_table -> approved x = false)
    by (intros x [<-|[]]; reflexivity).
  split; [exact H|].
  exact (C4_no_approved_records 365 never_fails 0 1000
           {| db := denied_table; trace := [] |} H).
Defined.

(** C5.  With a positive batch size [handle] terminates on every table and
    whatever the database answers to the writes: the loop is left as soon as
    [batch_start] exceeds [max_user_id], an iteration that is entered hands
    [batch_start + batch_size] to the next one, and so the fuel
    [iterations t batch_size] is enough (and, when no write is refused,
    exactly what the loop uses: iteration [k] starts at
    [minimum + k * batch_size], which exceeds the maximum first for
    [k = iterations t batch_size]). *)
Theorem C5_handle_terminates days save_fails t tr batch_size :
  0 < batch_size ->
  (forall fuel,
      (iterations t batch_size <= fuel)%nat ->
      handle days save_fails fuel batch_size {| db := t; trace := tr |}
      <> OutOfFuel)
  /\ (forall fuel mx start w,
        mx < start ->
        while_loop days save_fails fuel batch_size mx start
          (start + batch_size) w
        = Val tt w)
  /\ (forall fuel mx start w,
        start <= mx ->
        while_loop days save_fails (S fuel) batch_size mx start
          (start + batch_size) w
        = bind (users <- iterate_users
                           (batch_queryset start (start + batch_size)) ;;
                for_each users (process_user days save_fails))
            (fun _ => while_loop days save_fails fuel batch_size mx
                        (start + batch_size)
                        (start + batch_size + batch_size)) w)
  /\ (forall mx mn k,
        bounds t = Some (mx, mn) ->
        ((k < iterations t batch_size)%nat
         <-> mn + Z.of_nat k * batch_size <= mx))
  /\ (unique_ids t ->
      forall fuel,
        (fuel < iterations t batch_size)%nat ->
        handle days never_fails fuel batch_size {| db := t; trace := tr |}
        = OutOfFuel).
Proof.
  intros Hb. split; [|split; [|split; [|split]]].
  - intros fuel Hf. unfold iterations in Hf.
    destruct (bounds t) as [[mx mn]|] eqn:E.
    + rewrite (handle_bounds_some _ _ _ _ {| db := t; trace := tr |} mx mn E).
      now apply while_loop_terminates.
    + now rewrite (handle_bounds_none _ _ _ _ {| db := t; trace := tr |} E).
  - intros. now apply while_loop_exit.
  - intros. now apply while_loop_step.
  - intros mx mn k E. unfold iterations. rewrite E.
    now apply iterations_from_lt.
  - intros Hu fuel Hf. now apply handle_out_of_fuel.
Qed.

Lemma C5_handle_terminates_witness :
  0 < 7
  /\ (forall fuel,
         (iterations sample_table 7 <= fuel)%nat ->
         handle 365 second_write_fails fuel 7 sample_world <> OutOfFuel)
  /\ (forall fuel mx start w,
        mx < start ->
        while_loop 365 second_write_fails fuel 7 mx start (start + 7) w
        = Val tt w)
  /\ (forall fuel mx start w,
        start <= mx ->
        while_loop 365 second_write_fails (S fuel) 7 mx start (start + 7) w
        = bind (users <- iterate_users (batch_queryset start (start + 7)) ;;
                for_each users (process_user 365 second_write_fails))
            (fun _ => while_loop 365 second_write_fails fuel 7 mx
                        (start + 7) (start + 7 + 7)) w)
  /\ (forall mx mn k,
        bounds sample_table = Some (mx, mn) ->
        ((k < iterations sample_table 7)%nat <-> mn + Z.of_nat k * 7 <= mx))
  /\ (unique_ids sample_table ->
      forall fuel,
        (fuel < iterations sample_table 7)%nat ->
        handle 365 never_fails fuel 7 sample_world = OutOfFuel).
Proof.
  assert (H : 0 < 7) by lia.
  split; [exact H|].
  exact (C5_handle_terminates 365 second_write_fails sample_table [] 7 H).
Defined.

(** C6.  When an approved record exists, [self.sspv[0]] is an approved record
    with the largest [user_id] and [self.sspv.reverse()[0]] one with the
    smallest; [handle] enters the loop with [max_user_id] the largest,
    [batch_start] the smallest and [batch_stop = batch_start + batch_size],
    so that the first window selects the approved records with
    [batch_start <= user_id < batch_start + batch_size]. *)
Theorem C6_bounds_and_first_window days save_fails fuel batch_size w :
  (exists x, In x (db w) /\ approved x = true) ->
  exists r_max r_min,
    index0 sspv w = Val r_max w
    /\ index0 (reverse sspv) w = Val r_min w
    /\ In r_max (db w) /\ approved r_max = true
    /\ In r_min (db w) /\ approved r_min = true
    /\ (forall x, In x (db w) -> approved x = true ->
          user_id r_min <= user_id x <= user_id r_max)
    /\ first_batch batch_size w
       = Val (user_id r_max, user_id r_min, user_id r_min + batch_size) w
    /\ handle days save_fails fuel batch_size w
       = while_loop days save_fails fuel batch_size
           (user_id r_max) (user_id r_min) (user_id r_min + batch_size) w
    /\ (forall x,
          selects (batch_queryset (user_id r_min) (user_id r_min + batch_size)) x
          = true
          <-> approved x = true
              /\ user_id r_min <= user_id x < user_id r_min + batch_size).
Proof.
  intros (x & Hx & Ha).
  destruct (bounds (db w)) as [[mx mn]|] eqn:E.
  - pose proof (handle_bounds_some days save_fails fuel batch_size w mx mn E)
      as Hh.
    pose proof (bounds_some _ _ _ E) as (_ & _ & Hb).
    unfold bounds in E. unfold first_batch, index0, bind, ret.
    destruct (rows sspv (db w)) as [|r_max l1] eqn:E1; [discriminate|].
    destruct (rows (reverse sspv) (db w)) as [|r_min l2] eqn:E2; [discriminate|].
    injection E as <- <-. exists r_max, r_min.
    assert (H1 : In r_max (rows sspv (db w))) by (rewrite E1; now left).
    assert (H2 : In r_min (rows (reverse sspv) (db w)))
      by (rewrite E2; now left).
    apply rows_In in H1 as [H1 S1]. rewrite selects_sspv in S1.
    apply rows_In in H2 as [H2 S2]. rewrite selects_reverse_sspv in S2.
    repeat (split; [easy|]).
    intros y. apply (selects_batch (order sspv)).
  - rewrite (proj1 (bounds_none _) E x Hx) in Ha. discriminate.
Qed.

Lemma C6_bounds_and_first_window_witness :
  (exists x, In x (db sample_world) /\ approved x = true)
  /\ exists r_max r_min,
       index0 sspv sample_world = Val r_max sample_world
       /\ index0 (reverse sspv) sample_world = Val r_min sample_world
       /\ In r_max (db sample_world) /\ approved r_max = true
       /\ In r_min (db sample_world) /\ approved r_min = true
       /\ (forall x, In x (db sample_world) -> approved x = true ->
             user_id r_min <= user_id x <= user_id r_max)
       /\ first_batch 1000 sample_world
          = Val (user_id r_max, user_id r_min, user_id r_min + 1000)
              sample_world
       /\ handle 365 never_fails 2 1000 sample_world
          = while_loop 365 never_fails 2 1000
              (user_id r_max) (user_id r_min) (user_id r_min + 1000)
              sample_world
       /\ (forall x,
             selects (batch_queryset (user_id r_min) (user_id r_min + 1000)) x
             = true
             <-> approved x = true
                 /\ user_id r_min <= user_id x < user_id r_min + 1000).
Proof.
  assert (H : exists x, In x (db sample_world) /\ approved x = true)
    by (eexists; split; [left; reflexivity|reflexivity]).
  split; [exact H|].
  exact (C6_bounds_and_first_window 365 never_fails 2 1000 sample_world H).
Defined.

(** C7.  A run creates and deletes nothing: the table keeps its length, its
    primary keys in their order, and every column of every row but
    [expiry_date].  A row that [find_recent_verification] does not pick for
    its user is left as it was; so is, in particular, every row that is not
    approved and every approved row with a more recently updated approved
    row of the same user. *)
Theorem C7_other_records_untouched days t batch_size fuel tr :
  unique_ids t ->
  0 < batch_size ->
  (iterations t batch_size <= fuel)%nat ->
  exists w',
    handle days never_fails fuel batch_size {| db := t; trace := tr |}
    = Val tt w'
    /\ List.length (db w') = List.length t
    /\ map id (db w') = map id t
    /\ map columns (db w') = map columns t
    /\ (forall i x, nth_error t i = Some x -> is_recent t x = false ->
          nth_error (db w') i = Some x)
    /\ (forall i x, nth_error t i = Some x ->
          approved x = false
          \/ (exists y, In y t /\ approved y = true /\ user_id y = user_id x
                        /\ updated_at x < updated_at y) ->
          nth_error (db w') i = Some x).
Proof.
  intros Hu Hb Hf. eexists. split; [now apply handle_run|]. cbn [db].
  assert (Hkeep : forall i x, nth_error t i = Some x -> is_recent t x = false ->
                    nth_error (populate days t) i = Some x).
  { intros i x Hi Hr. unfold populate.
    rewrite (map_nth_error _ _ _ Hi). unfold populate_row. now rewrite Hr. }
  split; [unfold populate; apply length_map|].
  split; [apply map_id_columns, populate_columns|].
  split; [apply populate_columns|]. split; [exact Hkeep|].
  intros i x Hi Hx. apply Hkeep; trivial.
  destruct (is_recent t x) eqn:Hr; [exfalso|reflexivity].
  apply is_recent_max in Hr as [Ha Hm]; trivial;
    [|now apply (nth_error_In _ i)].
  destruct Hx as [Hx|(y & Hy & Hya & Hyu & Hlt)]; [congruence|].
  specialize (Hm y Hy Hya Hyu). lia.
Qed.

Lemma C7_other_records_untouched_witness :
  unique_ids sample_table /\ 0 < 1000
  /\ (iterations sample_table 1000 <= 2)%nat
  /\ exists w',
       handle 365 never_fails 2 1000 sample_world = Val tt w'
       /\ List.length (db w') = List.length sample_table
       /\ map id (db w') = map id sample_table
       /\ map columns (db w') = map columns sample_table
       /\ (forall i x, nth_error sample_table i = Some x ->
             is_recent sample_table x = false ->
             nth_error (db w') i = Some x)
       /\ (forall i x, nth_error sample_table i = Some x ->
             approved x = false
             \/ (exists y, In y sample_table /\ approved y = true
                           /\ user_id y = user_id x
                           /\ updated_at x < updated_at y) ->
             nth_error (db w') i = Some x).
Proof.
  assert (H1 : unique_ids sample_table) by unique_ids_by_computation.
  assert (H2 : 0 < 1000) by lia.
  assert (H3 : (iterations sample_table 1000 <= 2)%nat) by (vm_compute; lia).
  repeat (split; [assumption|]).
  exact (C7_other_records_untouched 365 sample_table 1000 2 [] H1 H2 H3).
Defined.

(** C8.  A run is a sequence of writes, one row per user and in the order the
    database names the users, that the database accepts one after the other.
    Either it accepts them all, every user with an approved record is
    written and [handle] returns; or it refuses one, and [handle] raises the
    database's exception there, which nothing catches: the refused row is
    not tried again, nothing is done after it, and the table is the one the
    writes before it left, each of the rows written still in it. *)
Theorem C8_refused_write_propagates days save_fails t batch_size fuel tr :
  unique_ids t ->
  0 < batch_size ->
  (iterations t batch_size <= fuel)%nat ->
  (exists x, In x t /\ approved x = true) ->
  exists rs,
    (forall r, In r rs ->
       exists r0, recent t (user_id r) = Some r0
                  /\ r = set_expiry_date days r0)
    /\ NoDup (map user_id rs)
    /\ (forall k r, nth_error rs k = Some r ->
          save_fails (tr ++ flat_map write_events (firstn k rs)) r = false)
    /\ (forall r, In r rs -> In r (write_rows rs t))
    /\ ((handle days save_fails fuel batch_size {| db := t; trace := tr |}
         = Val tt {| db := write_rows rs t;
                     trace := tr ++ flat_map write_events rs |}
         /\ forall x, In x t -> approved x = true ->
              In (user_id x) (map user_id rs))
        \/ exists r,
             save_fails (tr ++ flat_map write_events rs) r = true
             /\ (exists r0, recent t (user_id r) = Some r0
                            /\ r = set_expiry_date days r0)
             /\ ~ In (user_id r) (map user_id rs)
             /\ handle days save_fails fuel batch_size
                  {| db := t; trace := tr |}
                = Exc DatabaseError
                    {| db := write_rows rs t;
                       trace := tr ++ flat_map write_events rs
                                  ++ [ev_save_failed r] |}).
Proof.
  intros Hu Hb Hf Hex.
  rewrite (handle_planned days save_fails t tr fuel batch_size Hu Hb Hf Hex).
  set (plan := planned days t (run_users t batch_size)).
  assert (Hplan : forall r, In r plan ->
            exists r0, recent t (user_id r) = Some r0
                       /\ r = set_expiry_date days r0)
    by (intros r Hr; now apply (planned_row_recent days t _ r Hr)).
  assert (Husers : map user_id plan = run_users t batch_size).
  { apply planned_users. intros u. now apply run_users_recent. }
  assert (Hnd : NoDup (map user_id plan))
    by (rewrite Husers; now apply run_users_NoDup).
  assert (Hkept : forall k r, In r (firstn k plan) ->
            In r (write_rows (firstn k plan) t)).
  { intros k r Hr. rewrite (write_rows_touch days t Hu); trivial.
    - destruct (Hplan r (In_firstn _ _ _ Hr)) as (r0 & E0 & ->).
      apply touch_In; [now apply recent_spec in E0|].
      change (id r0) with (id (set_expiry_date days r0)). now apply in_map.
    - intros r' Hr'. destruct (Hplan r' (In_firstn _ _ _ Hr')) as (r0 & E0 & ->).
      exists r0. split; [|reflexivity]. now apply recent_spec in E0. }
  destruct (first_true
              (fun k => match nth_error plan k with
                        | Some r =>
                            save_fails
                              (tr ++ flat_map write_events (firstn k plan)) r
                        | None => false
                        end)
              (List.length plan)) as [Hall|(k & Hk & Hp & Hbefore)].
  - exists plan.
    assert (Hok : forall k r, nth_error plan k = Some r ->
              save_fails (tr ++ flat_map write_events (firstn k plan)) r
              = false).
    { intros k r Hr.
      assert (Hlt : (k < List.length plan)%nat)
        by (apply nth_error_Some; congruence).
      specialize (Hall k Hlt). cbn beta in Hall. now rewrite Hr in Hall. }
    split; [exact Hplan|]. split; [exact Hnd|]. split; [exact Hok|].
    split; [rewrite <- (firstn_all plan); apply Hkept|].
    left. split; [now apply for_each_write_accepted|].
    intros x Hx Ha. rewrite Husers. now apply run_users_cover.
  - cbn beta in Hp. destruct (nth_error plan k) as [r|] eqn:Ek; [|discriminate].
    exists (firstn k plan).
    assert (Hok : forall j r', (j < k)%nat -> nth_error plan j = Some r' ->
              save_fails (tr ++ flat_map write_events (firstn j plan)) r'
              = false).
    { intros j r' Hj Hr'. specialize (Hbefore j Hj). cbn beta in Hbefore.
      now rewrite Hr' in Hbefore. }
    assert (Hnth : nth_error (map user_id plan) k = Some (user_id r))
      by now apply map_nth_error.
    destruct (NoDup_firstn_nth _ _ _ Hnd Hnth) as [Hnd' Hnotin].
    rewrite firstn_map in Hnd', Hnotin.
    split; [intros r' Hr'; apply Hplan; now apply In_firstn in Hr'|].
    split; [exact Hnd'|]. split; [|split; [apply Hkept|]].
    + intros j r' Hr'. rewrite nth_error_firstn in Hr'.
      destruct (Nat.ltb_spec j k) as [Hj|Hj]; [|discriminate].
      rewrite firstn_firstn, Nat.min_l by lia. now apply Hok.
    + right. exists r. split; [exact Hp|].
      split; [apply Hplan; now apply (nth_error_In _ k)|].
      split; [exact Hnotin|]. now apply for_each_write_refused.
Qed.

Lemma C8_refused_write_propagates_witness :
  exists rs,
    (forall r, In r rs ->
       exists r0, recent sample_table (user_id r) = Some r0
                  /\ r = set_expiry_date 365 r0)
    /\ NoDup (map user_id rs)
    /\ (forall k r, nth_error rs k = Some r ->
          second_write_fails ([] ++ flat_map write_events (firstn k rs)) r
          = false)
    /\ (forall r, In r rs -> In r (write_rows rs sample_table))
    /\ ((handle 365 second_write_fails 2 1000 sample_world
         = Val tt {| db := write_rows rs sample_table;
                     trace := [] ++ flat_map write_events rs |}
         /\ forall x, In x sample_table -> approved x = true ->
              In (user_id x) (map user_id rs))
        \/ exists r,
             second_write_fails ([] ++ flat_map write_events rs) r = true
             /\ (exists r0, recent sample_table (user_id r) = Some r0
                            /\ r = set_expiry_date 365 r0)
             /\ ~ In (user_id r) (map user_id rs)
             /\ handle 365 second_write_fails 2 1000 sample_world
                = Exc DatabaseError
                    {| db := write_rows rs sample_table;
                       trace := [] ++ flat_map write_events rs
                                  ++ [ev_save_failed r] |}).
Proof.
  apply (C8_refused_write_propagates 365 second_write_fails sample_table
           1000 2 []).
  - unique_ids_by_computation.
  - lia.
  - vm_compute; lia.
  - eexists; split; [left; reflexivity|reflexivity].
Defined.

(** C9.  On a run over a table with approved records, the windows are
    [[minimum + i * batch_size, minimum + (i + 1) * batch_size)] for
    [i < iterations]: consecutive, pairwise disjoint, and covering every
    identifier from the minimum to the maximum, hence every approved user.
    The users written are the users of the first window, in the order the
    database names them, then those of the second, and so on; each user
    with an approved record is written exactly once, with the row
    [find_recent_verification] picks. *)
Theorem C9_one_window_per_user days t batch_size fuel tr mx mn :
  unique_ids t ->
  0 < batch_size ->
  (iterations t batch_size <= fuel)%nat ->
  bounds t = Some (mx, mn) ->
  exists evs,
    handle days never_fails fuel batch_size {| db := t; trace := tr |}
    = Val tt {| db := populate days t; trace := tr ++ evs |}
    /\ (exists uss,
          saved_users evs = List.concat uss
          /\ Forall2
               (fun us b =>
                  NoDup us
                  /\ forall u,
                       In u us
                       <-> fst b <= u < snd b
                           /\ exists x, In x t /\ approved x = true
                                         /\ user_id x = u)
               uss (run_batches t batch_size))
    /\ (forall i a b,
          nth_error (run_batches t batch_size) i = Some (a, b)
          <-> (i < iterations t batch_size)%nat
              /\ a = mn + Z.of_nat i * batch_size /\ b = a + batch_size)
    /\ (forall i j a b a' b' u,
          nth_error (run_batches t batch_size) i = Some (a, b) ->
          nth_error (run_batches t batch_size) j = Some (a', b') ->
          a <= u < b -> a' <= u < b' -> i = j)
    /\ (forall u, mn <= u <= mx ->
          exists i a b,
            nth_error (run_batches t batch_size) i = Some (a, b)
            /\ a <= u < b)
    /\ (forall x, In x t -> approved x = true -> mn <= user_id x <= mx)
    /\ NoDup (saved_users evs)
    /\ (forall u,
          In u (saved_users evs)
          <-> exists x, In x t /\ approved x = true /\ user_id x = u)
    /\ (forall u,
          (exists x, In x t /\ approved x = true /\ user_id x = u) ->
          count_occ Z.eq_dec (saved_users evs) u = 1%nat)
    /\ (forall r,
          In (ev_save r) evs ->
          exists r0, recent t (user_id r) = Some r0
                     /\ r = set_expiry_date days r0).
Proof.
  intros Hu Hb Hf E. exists (run_events days t batch_size).
  split; [now apply handle_run|].
  pose proof (bounds_some _ _ _ E) as (_ & _ & Hrange).
  assert (Hrec : forall u, In u (run_users t batch_size) ->
                   exists r, recent t u = Some r).
  { intros u Hin. unfold run_users, run_batches in Hin. rewrite E in Hin.
    apply scheduled_In in Hin as [_ Hx]; trivial. now apply recent_exists. }
  assert (Hsaved : saved_users (run_events days t batch_size)
                   = run_users t batch_size).
  { unfold run_events. rewrite E, saved_users_writes.
    now apply planned_users. }
  assert (Hnth : forall i a b,
            nth_error (run_batches t batch_size) i = Some (a, b)
            <-> (i < iterations t batch_size)%nat
                /\ a = mn + Z.of_nat i * batch_size /\ b = a + batch_size).
  { intros i a b. unfold run_batches, iterations. rewrite E.
    apply batches_nth. }
  assert (Hin : forall u,
            In u (saved_users (run_events days t batch_size))
            <-> exists x, In x t /\ approved x = true /\ user_id x = u).
  { intros u. rewrite Hsaved. unfold run_users, run_batches. rewrite E.
    rewrite scheduled_In by exact Hb. split; [tauto|].
    intros (x & Hx & Ha & Hxu). split; [|now exists x].
    specialize (Hrange x Hx Ha).
    pose proof (iterations_from_bound batch_size mx mn Hb). lia. }
  assert (Hnd : NoDup (saved_users (run_events days t batch_size))).
  { rewrite Hsaved. unfold run_users, run_batches. rewrite E.
    now apply scheduled_NoDup. }
  split.
  { exists (map (users_of_batch t) (run_batches t batch_size)). split.
    - rewrite Hsaved. unfold run_users, scheduled.
      apply flat_map_concat_map.
    - apply users_of_batches. }
  split; [exact Hnth|]. split; [|split].
  - intros i j a b a' b' u Hi Hj Ha Ha'.
    apply Hnth in Hi as (_ & -> & ->). apply Hnth in Hj as (_ & -> & ->).
    apply Nat2Z.inj. nia.
  - intros u Hrg.
    pose proof (Z.mod_pos_bound (u - mn) batch_size Hb).
    pose proof (Z.div_mod (u - mn) batch_size).
    assert (0 <= (u - mn) / batch_size) by (apply Z.div_pos; lia).
    exists (Z.to_nat ((u - mn) / batch_size)),
      (mn + (u - mn) / batch_size * batch_size),
      (mn + (u - mn) / batch_size * batch_size + batch_size).
    split; [|nia]. apply Hnth. rewrite Z2Nat.id by lia.
    split; [|split; reflexivity].
    unfold iterations. rewrite E. apply iterations_from_lt; trivial.
    rewrite Z2Nat.id by lia. nia.
  - split; [exact Hrange|]. split; [exact Hnd|]. split; [exact Hin|].
    split.
    + intros u Hex. apply NoDup_count_one; trivial. now apply Hin.
    + intros r Hr. unfold run_events in Hr. rewrite E in Hr.
      apply in_flat_map in Hr as (r' & Hr' & Hev).
      destruct Hev as [Hev|[Hev|[]]]; [|discriminate].
      injection Hev as ->.
      apply planned_In in Hr' as (u & r0 & _ & E0 & ->).
      exists r0. split; [|reflexivity]. cbn [user_id set_expiry_date].
      now pose proof (recent_spec _ _ _ E0) as (_ & _ & -> & _).
Qed.

Lemma C9_one_window_per_user_witness :
  exists evs,
    handle 365 never_fails 2 1000 sample_world
    = Val tt {| db := populate 365 sample_table; trace := [] ++ evs |}
    /\ (exists uss,
          saved_users evs = List.concat uss
          /\ Forall2
               (fun us b =>
                  NoDup us
                  /\ forall u,
                       In u us
                       <-> fst b <= u < snd b
                           /\ exists x, In x sample_table
                                         /\ approved x = true
                                         /\ user_id x = u)
               uss (run_batches sample_table 1000))
    /\ (forall i a b,
          nth_error (run_batches sample_table 1000) i = Some (a, b)
          <-> (i < iterations sample_table 1000)%nat
              /\ a = 42 + Z.of_nat i * 1000 /\ b = a + 1000)
    /\ (forall i j a b a' b' u,
          nth_error (run_batches sample_table 1000) i = Some (a, b) ->
          nth_error (run_batches sample_table 1000) j = Some (a', b') ->
          a <= u < b -> a' <= u < b' -> i = j)
    /\ (forall u, 42 <= u <= 1042 ->
          exists i a b,
            nth_error (run_batches sample_table 1000) i = Some (a, b)
            /\ a <= u < b)
    /\ (forall x, In x sample_table -> approved x = true ->
          42 <= user_id x <= 1042)
    /\ NoDup (saved_users evs)
    /\ (forall u,
          In u (saved_users evs)
          <-> exists x, In x sample_table /\ approved x = true
                        /\ user_id x = u)
    /\ (forall u,
          (exists x, In x sample_table /\ approved x = true
                     /\ user_id x = u) ->
          count_occ Z.eq_dec (saved_users evs) u = 1%nat)
    /\ (forall r,
          In (ev_save r) evs ->
          exists r0, recent sample_table (user_id r) = Some r0
                     /\ r = set_expiry_date 365 r0).
Proof.
  apply (C9_one_window_per_user 365 sample_table 1000 2 [] 1042 42).
  - unique_ids_by_computation.
  - lia.
  - vm_compute; lia.
  - reflexivity.
Defined.

(** C10.  [find_recent_verification(user_id)] reads the whole table: for a
    user with an approved record it returns, without any effect, an approved
    record of that user whose [updated_at] no approved record of the user
    anywhere in the table exceeds.  Its queryset carries the two lookups
    [status='approved'] and [user_id=user_id] and no bound of a window. *)
Theorem C10_find_recent_verification_whole_table u w :
  (exists x, In x (db w) /\ approved x = true /\ user_id x = u) ->
  exists r,
    find_recent_verification u w = Val r w
    /\ In r (db w) /\ approved r = true /\ user_id r = u
    /\ (forall x, In x (db w) -> approved x = true -> user_id x = u ->
          updated_at x <= updated_at r)
    /\ lookups (filter_ [user_id_exact u] sspv)
       = [status_exact "approved"; user_id_exact u].
Proof.
  intros Hex. destruct (recent_exists _ _ Hex) as (r & E). exists r.
  pose proof (recent_spec _ _ _ E) as (H1 & H2 & H3 & H4).
  repeat split; trivial.
  unfold find_recent_verification, latest. unfold recent in E.
  now destruct (rows _ (db w)); [discriminate|injection E as ->].
Qed.

Lemma C10_find_recent_verification_whole_table_witness :
  (exists x, In x (db sample_world) /\ approved x = true /\ user_id x = 42)
  /\ exists r,
       find_recent_verification 42 sample_world = Val r sample_world
       /\ In r (db sample_world) /\ approved r = true /\ user_id r = 42
       /\ (forall x, In x (db sample_world) -> approved x = true ->
             user_id x = 42 -> updated_at x <= updated_at r)
       /\ lookups (filter_ [user_id_exact 42] sspv)
          = [status_exact "approved"; user_id_exact 42].
Proof.
  assert (H : exists x, In x (db sample_world) /\ approved x = true
                        /\ user_id x = 42)
    by (eexists; split; [left; reflexivity|split; reflexivity]).
  split; [exact H|].
  exact (C10_find_recent_verification_whole_table 42 sample_world H).
Defined.

(** * Further properties of the command *)

(** ** Batch sizes that are not positive *)

Lemma users_of_batch_empty t a b : b <= a -> users_of_batch t (a, b) = [].
Proof.
  intros H. destruct (users_of_batch t (a, b)) as [|u l] eqn:E; [reflexivity|].
  assert (Hu : In u (users_of_batch t (a, b))) by (rewrite E; now left).
  apply users_of_batch_In in Hu as [Hr _]. cbn [fst snd] in Hr. lia.
Qed.

Lemma while_loop_nonpositive_diverges days save_fails batch_size mx :
  batch_size <= 0 ->
  forall fuel start stop w,
    start <= mx -> stop <= start ->
    while_loop days save_fails fuel batch_size mx start stop w = OutOfFuel.
Proof.
  intros Hb. induction fuel as [|fuel IH]; intros start stop w Hs Ht;
    cbn [while_loop]; destruct (Z.leb_spec start mx); try lia; [reflexivity|].
  rewrite bind_iterate_users.
  change (values_user_id_distinct (batch_queryset start stop) (db w))
    with (users_of_batch (db w) (start, stop)).
  rewrite users_of_batch_empty by exact Ht. cbn [for_each]. unfold bind, ret.
  apply IH; lia.
Qed.

Lemma handle_nonpositive_diverges days save_fails batch_size fuel w :
  batch_size <= 0 ->
  (exists x, In x (db w) /\ approved x = true) ->
  handle days save_fails fuel batch_size w = OutOfFuel.
Proof.
  intros Hb (x & Hx & Ha).
  destruct (bounds (db w)) as [[mx mn]|] eqn:E.
  - rewrite (handle_bounds_some _ _ _ _ w mx mn E).
    apply bounds_some in E as (_ & _ & Hr). specialize (Hr x Hx Ha).
    apply while_loop_nonpositive_diverges; lia.
  - rewrite (proj1 (bounds_none _) E x Hx) in Ha. discriminate.
Qed.

(** X1.  With a batch size that is zero or negative and at least one approved
    record, [handle] never returns and never raises: every window it builds
    is empty, [batch_start] never gets past [max_user_id], and no amount of
    iterations ends the loop, whatever the database would answer. *)
Theorem X1_nonpositive_batch_size_never_returns days save_fails batch_size w :
  batch_size <= 0 ->
  (exists x, In x (db w) /\ approved x = true) ->
  forall fuel, handle days save_fails fuel batch_size w = OutOfFuel.
Proof.
  intros Hb Hex fuel. now apply handle_nonpositive_diverges.
Qed.

Lemma X1_nonpositive_batch_size_never_returns_witness :
  0 <= 0
  /\ (exists x, In x (db sample_world) /\ approved x = true)
  /\ forall fuel, handle 365 never_fails fuel 0 sample_world = OutOfFuel.
Proof.
  assert (H1 : 0 <= 0) by lia.
  assert (H2 : exists x, In x (db sample_world) /\ approved x = true)
    by (eexists; split; [left; reflexivity|reflexivity]).
  repeat (split; [assumption|]).
  exact (X1_nonpositive_batch_size_never_returns 365 never_fails 0
           sample_world H1 H2).
Defined.

(** X2.  On a table with an approved record the command comes to an end
    exactly when [--batch_size] is left out (the default, 1000, is used) or
    is given a positive value. *)
Theorem X2_command_returns_iff_batch_size_positive days t tr given :
  unique_ids t ->
  (exists x, In x t /\ approved x = true) ->
  (exists fuel w',
      run_command days never_fails fuel given {| db := t; trace := tr |}
      = Val tt w')
  <-> (given = None \/ exists n, given = Some n /\ 0 < n).
Proof.
  intros Hu Hex. unfold run_command. split.
  - intros (fuel & w' & Hr). destruct given as [n|]; [|now left].
    right. exists n. split; [reflexivity|].
    destruct (Z_lt_le_dec 0 n) as [Hn|Hn]; [exact Hn|].
    cbn [batch_size_option] in Hr.
    rewrite handle_nonpositive_diverges in Hr; [discriminate|exact Hn|].
    exact Hex.
  - intros Hg.
    assert (Hb : 0 < batch_size_option given).
    { destruct Hg as [->|(n & -> & Hn)]; [reflexivity|exact Hn]. }
    exists (iterations t (batch_size_option given)). eexists.
    now apply handle_run.
Qed.

Lemma X2_command_returns_iff_batch_size_positive_witness :
  unique_ids sample_table
  /\ (exists x, In x sample_table /\ approved x = true)
  /\ ((exists fuel w',
          run_command 365 never_fails fuel None sample_world = Val tt w')
      <-> (@None Z = None \/ exists n, None = Some n /\ 0 < n)).
Proof.
  assert (H1 : unique_ids sample_table) by unique_ids_by_computation.
  assert (H2 : exists x, In x sample_table /\ approved x = true)
    by (eexists; split; [left; reflexivity|reflexivity]).
  repeat (split; [assumption|]).
  exact (X2_command_returns_iff_batch_size_positive 365 sample_table [] None
           H1 H2).
Defined.

(** ** Whatever the database answers *)

(** A loop over rows to write either writes them all or stops at the first
    one the database refuses. *)
Lemma for_each_write_outcome save_fails rs :
  forall w,
    match for_each rs (write_and_log save_fails) w with
    | Val _ w' => db w' = write_rows rs (db w)
    | Exc e w' =>
        e = DatabaseError
        /\ exists k r tr',
             nth_error rs k = Some r
             /\ db w' = write_rows (firstn k rs) (db w)
             /\ trace w' = tr' ++ [ev_save_failed r]
    | OutOfFuel => False
    end.
Proof.
  induction rs as [|a rs IH]; intros w; [reflexivity|].
  cbn [for_each]. unfold bind at 1.
  unfold write_and_log at 1, bind, save, log.
  destruct (save_fails (trace w) a).
  - split; [reflexivity|]. now exists 0%nat, a, (trace w).
  - cbn [db trace]. specialize (IH {| db := write_row a (db w);
      trace := (trace w ++ [ev_save a])
                 ++ [ev_log WARNING (msg_datetime (updated_at a))] |}).
    destruct (for_each rs _ _) as [[] w'|e w'|]; cbn [db] in IH; trivial.
    destruct IH as (-> & k & r & tr' & Hk & Hd & Ht). split; [reflexivity|].
    now exists (S k), r, tr'.
Qed.

Lemma planned_id_recent days t us x :
  unique_ids t -> In x t ->
  In (id x) (map id (planned days t us)) -> is_recent t x = true.
Proof.
  intros Hu Hx Hi. apply in_map_iff in Hi as (r & Hid & Hr).
  apply (planned_In days t) in Hr as (u & r0 & _ & E0 & ->).
  cbn [id set_expiry_date] in Hid.
  pose proof (recent_spec _ _ _ E0) as (Hr0 & _ & Hu0 & _).
  assert (r0 = x) by now apply (NoDup_map_eq id t).
  subst r0. unfold is_recent. rewrite Hu0, E0. apply Z.eqb_refl.
Qed.

Lemma write_rows_prefix days t us k :
  unique_ids t ->
  exists ids,
    write_rows (firstn k (planned days t us)) t = map (touch days ids) t
    /\ forall x, In x t -> In (id x) ids -> is_recent t x = true.
Proof.
  intros Hu. exists (map id (firstn k (planned days t us))). split.
  - apply (write_rows_touch days t Hu); trivial.
    intros r Hr. apply In_firstn in Hr.
    apply (planned_In days t) in Hr as (u & x & _ & E & ->).
    exists x. split; [|reflexivity]. now apply recent_spec in E.
  - intros x Hx Hi. apply (planned_id_recent days t us); trivial.
    rewrite <- firstn_map in Hi. now apply In_firstn in Hi.
Qed.

(** Every way out of [handle]: the table is the one it found with some of
    the rows [find_recent_verification] picks written back, and an exception
    is the database's refusal of a write. *)
Lemma handle_outcome days save_fails t tr fuel batch_size :
  unique_ids t ->
  match handle days save_fails fuel batch_size {| db := t; trace := tr |} with
  | Val _ w' =>
      exists ids,
        db w' = map (touch days ids) t
        /\ forall x, In x t -> In (id x) ids -> is_recent t x = true
  | Exc e w' =>
      e = DatabaseError
      /\ (exists r tr', trace w' = tr' ++ [ev_save_failed r])
      /\ exists ids,
           db w' = map (touch days ids) t
           /\ forall x, In x t -> In (id x) ids -> is_recent t x = true
  | OutOfFuel => True
  end.
Proof.
  intros Hu.
  destruct (bounds t) as [[mx mn]|] eqn:E.
  - destruct (Z_lt_le_dec 0 batch_size) as [Hb|Hb].
    + rewrite (handle_bounds_some _ _ _ _ {| db := t; trace := tr |} mx mn E).
      rewrite (while_loop_planned days save_fails t Hu); trivial;
        [|reflexivity].
      set (us := scheduled t _). unfold bind.
      pose proof (for_each_write_outcome save_fails (planned days t us)
                    {| db := t; trace := tr |}) as Ho.
      destruct (for_each _ _ _) as [[] w'|e w'|]; cbn [db] in Ho.
      * destruct (_ <? _)%nat; [exact I|]. unfold ret.
        rewrite Ho, <- (firstn_all (planned days t us)).
        now apply write_rows_prefix.
      * destruct Ho as (-> & k & r & tr' & _ & Hd & Ht).
        split; [reflexivity|]. split; [now exists r, tr'|].
        rewrite Hd. now apply write_rows_prefix.
      * exact I.
    + rewrite handle_nonpositive_diverges; trivial.
      apply bounds_some in E as ((r & Hr & Ha & _) & _). now exists r.
  - rewrite (handle_bounds_none _ _ _ _ {| db := t; trace := tr |} E).
    exists []. cbn [db]. split; [|easy].
    unfold touch. cbn [existsb]. now rewrite map_id.
Qed.

(** X3.  A run never ends on a failed lookup: the [IndexError] of the empty
    queryset is caught at the head of [handle], and inside the loop
    [find_recent_verification] does not raise [DoesNotExist], since the
    users it is asked for come from the approved records and the writes
    leave [user_id] and [status] alone. *)
Theorem X3_no_lookup_error_escapes days save_fails fuel batch_size w e w' :
  unique_ids (db w) ->
  handle days save_fails fuel batch_size w = Exc e w' ->
  e <> IndexError /\ e <> DoesNotExist.
Proof.
  intros Hu Hr. destruct w as [t tr]. cbn [db] in Hu.
  pose proof (handle_outcome days save_fails t tr fuel batch_size Hu) as Ho.
  rewrite Hr in Ho. destruct Ho as (-> & _). split; discriminate.
Qed.

Lemma X3_no_lookup_error_escapes_witness :
  DatabaseError <> IndexError /\ DatabaseError <> DoesNotExist.
Proof.
  apply (X3_no_lookup_error_escapes 365 second_write_fails 2 1000
           sample_world DatabaseError interrupted_world).
  - unique_ids_by_computation.
  - reflexivity.
Defined.

(** X4.  However a run ends, normally or on a refused write, the table has
    the rows it had, in their order, and no column but [expiry_date] differs:
    nothing is inserted or deleted, and no [user_id], [status] or
    [updated_at] is changed. *)
Theorem X4_only_expiry_date_changes days save_fails fuel batch_size w w' :
  unique_ids (db w) ->
  (handle days save_fails fuel batch_size w = Val tt w'
   \/ exists e, handle days save_fails fuel batch_size w = Exc e w') ->
  map columns (db w') = map columns (db w)
  /\ List.length (db w') = List.length (db w)
  /\ map id (db w') = map id (db w).
Proof.
  intros Hu Hr. destruct w as [t tr]. cbn [db] in *.
  pose proof (handle_outcome days save_fails t tr fuel batch_size Hu) as Ho.
  assert (Hc : map columns (db w') = map columns t).
  { destruct Hr as [Hr|(e & Hr)]; rewrite Hr in Ho.
    - destruct Ho as (ids & -> & _). rewrite map_map.
      apply map_ext, touch_columns.
    - destruct Ho as (_ & _ & ids & -> & _). rewrite map_map.
      apply map_ext, touch_columns. }
  split; [exact Hc|]. split.
  - apply (f_equal (@List.length _)) in Hc. now rewrite !length_map in Hc.
  - now apply map_id_columns.
Qed.

Lemma X4_only_expiry_date_changes_witness :
  map columns (db interrupted_world) = map columns (db sample_world)
  /\ List.length (db interrupted_world) = List.length (db sample_world)
  /\ map id (db interrupted_world) = map id (db sample_world).
Proof.
  apply (X4_only_expiry_date_changes 365 second_write_fails 2 1000
           sample_world interrupted_world).
  - unique_ids_by_computation.
  - right. exists DatabaseError. reflexivity.
Defined.

(** X5.  [find_recent_verification(user_id)] raises [DoesNotExist], and
    touches nothing, exactly for the users without an approved record:
    records of other users and records that are not approved do not count. *)
Theorem X5_find_recent_verification_does_not_exist u w :
  find_recent_verification u w = Exc DoesNotExist w
  <-> forall x, In x (db w) -> approved x = true -> user_id x <> u.
Proof.
  unfold find_recent_verification, latest, ret, raise.
  set (q := order_by _ _).
  destruct (rows q (db w)) as [|r l] eqn:E; split.
  - intros _ x Hx Ha Hxu.
    assert (Hin : In x (rows q (db w)))
      by (apply rows_In; split; [easy|now apply selects_user]).
    rewrite E in Hin. easy.
  - reflexivity.
  - discriminate.
  - intros H. exfalso.
    assert (Hin : In r (rows q (db w))) by (rewrite E; now left).
    apply rows_In in Hin as [Hin Hs]. apply selects_user in Hs as [Ha Hu].
    now apply (H r Hin Ha).
Qed.

(** ** Running again *)

Lemma populate_touch days t ids :
  (forall x, In x t -> In (id x) ids -> is_recent t x = true) ->
  populate days (map (touch days ids) t) = populate days t.
Proof.
  intros H. unfold populate. rewrite map_map. apply map_ext_in.
  intros x Hx. unfold populate_row.
  rewrite is_recent_map by apply touch_columns.
  destruct (is_recent t x) eqn:Er.
  - apply set_expiry_date_congr, touch_columns.
  - unfold touch. destruct (existsb (Z.eqb (id x)) ids) eqn:Ee; [|reflexivity].
    apply existsb_exists in Ee as (i & Hi & Ei). apply Z.eqb_eq in Ei.
    subst i. rewrite (H x Hx Hi) in Er. discriminate.
Qed.





Lemma iterations_map g t batch_size :
  keeps_columns g -> iterations (map g t) batch_size = iterations t batch_size.
Proof. intros Hg. unfold iterations. now rewrite bounds_map. Qed.

Lemma unique_ids_map g t :
  keeps_columns g -> unique_ids t -> unique_ids (map g t).
Proof.
  intros Hg. unfold unique_ids. rewrite map_map.
  now rewrite (map_ext (fun x => id (g x)) id)
    by (intros x; apply (columns_fields _ _ (Hg x))).
Qed.

(** X6.  A run that a refused write has interrupted is made good by running
    the command again: once the database accepts the writes, the second run
    returns and leaves the table an uninterrupted run would have left. *)
Theorem X6_rerun_after_refused_write days save_fails t tr fuel batch_size
  e w1 fuel2 batch_size2 :
  unique_ids t ->
  handle days save_fails fuel batch_size {| db := t; trace := tr |}
  = Exc e w1 ->
  0 < batch_size2 ->
  (iterations t batch_size2 <= fuel2)%nat ->
  exists w2 w,
    handle days never_fails fuel2 batch_size2 w1 = Val tt w2
    /\ handle days never_fails fuel2 batch_size2 {| db := t; trace := tr |}
       = Val tt w
    /\ db w2 = db w.
Proof.
  intros Hu Hr Hb Hf.
  pose proof (handle_outcome days save_fails t tr fuel batch_size Hu) as Ho.
  rewrite Hr in Ho. destruct Ho as (_ & _ & ids & Hd & Hids).
  destruct w1 as [t1 tr1]. cbn [db trace] in *. subst t1.
  do 2 eexists. split; [|split; [now apply handle_run|]].
  - apply handle_run; trivial.
    + apply unique_ids_map; [apply touch_columns|exact Hu].
    + now rewrite iterations_map by apply touch_columns.
  - cbn [db]. now apply populate_touch.
Qed.

Lemma X6_rerun_after_refused_write_witness :
  exists w2 w,
    handle 365 never_fails 2 1000 interrupted_world = Val tt w2
    /\ handle 365 never_fails 2 1000 sample_world = Val tt w
    /\ db w2 = db w.
Proof.
  apply (X6_rerun_after_refused_write 365 second_write_fails sample_table []
           2 1000 DatabaseError interrupted_world 2 1000).
  - unique_ids_by_computation.
  - reflexivity.
  - lia.
  - vm_compute; lia.
Defined.



(** ** What is logged *)

Lemma saved_rows_writes rs : saved_rows (flat_map write_events rs) = rs.
Proof.
  induction rs as [|r rs IH]; [reflexivity|].
  cbn [flat_map write_events]. unfold saved_rows in *.
  rewrite flat_map_app, IH. reflexivity.
Qed.

Lemma log_lines_writes rs :
  log_lines (flat_map write_events rs)
  = map (fun r => (WARNING, msg_datetime (updated_at r))) rs.
Proof.
  induction rs as [|r rs IH]; [reflexivity|].
  cbn [flat_map write_events map]. unfold log_lines in *.
  rewrite flat_map_app, IH. reflexivity.
Qed.

(** X8.  On a table with approved records a complete run gives the logger
    one [WARNING] line per row it writes, right after the write, carrying the
    [updated_at] of that row, and nothing else; each row written is an
    approved row of the table with its [expiry_date] set to
    [updated_at + DAYS_GOOD_FOR] days. *)
Theorem X8_one_warning_per_write days t batch_size fuel tr :
  unique_ids t ->
  0 < batch_size ->
  (iterations t batch_size <= fuel)%nat ->
  (exists x, In x t /\ approved x = true) ->
  exists evs w',
    handle days never_fails fuel batch_size {| db := t; trace := tr |}
    = Val tt w'
    /\ trace w' = tr ++ evs
    /\ evs = flat_map
               (fun r => [ev_save r;
                          ev_log WARNING (msg_datetime (updated_at r))])
               (saved_rows evs)
    /\ log_lines evs
       = map (fun r => (WARNING, msg_datetime (updated_at r))) (saved_rows evs)
    /\ (forall r, In r (saved_rows evs) ->
          approved r = true
          /\ expiry_date r = Some (updated_at r + timedelta_days days)
          /\ exists x, In x t /\ columns x = columns r).
Proof.
  intros Hu Hb Hf (x & Hx & Ha). exists (run_events days t batch_size).
  eexists. split; [now apply handle_run|]. split; [reflexivity|].
  unfold run_events. destruct (bounds t) as [[mx mn]|] eqn:E.
  - rewrite saved_rows_writes, log_lines_writes.
    split; [reflexivity|]. split; [reflexivity|].
    intros r Hr. apply (planned_In days t) in Hr as (u & r0 & _ & E0 & ->).
    apply recent_spec in E0 as (Hr0 & Ha0 & _). split; [exact Ha0|].
    split; [reflexivity|]. now exists r0.
  - rewrite (proj1 (bounds_none t) E x Hx) in Ha. discriminate.
Qed.

Lemma X8_one_warning_per_write_witness :
  exists evs w',
    handle 365 never_fails 2 1000 sample_world = Val tt w'
    /\ trace w' = [] ++ evs
    /\ evs = flat_map
               (fun r => [ev_save r;
                          ev_log WARNING (msg_datetime (updated_at r))])
               (saved_rows evs)
    /\ log_lines evs
       = map (fun r => (WARNING, msg_datetime (updated_at r))) (saved_rows evs)
    /\ (forall r, In r (saved_rows evs) ->
          approved r = true
          /\ expiry_date r = Some (updated_at r + timedelta_days 365)
          /\ exists x, In x sample_table /\ columns x = columns r).
Proof.
  apply (X8_one_warning_per_write 365 sample_table 1000 2 []).
  - unique_ids_by_computation.
  - lia.
  - vm_compute; lia.
  - eexists; split; [left; reflexivity|reflexivity].
Defined.

(** ** Rows the queries do not see *)

Lemma filter_filter_implied {A} (p q : A -> bool) l :
  (forall x, q x = true -> p x = true) ->
  filter q (filter p l) = filter q l.
Proof.
  intros H. induction l as [|a l IH]; [reflexivity|]. cbn [filter].
  destruct (p a) eqn:Ep; cbn [filter].
  - now rewrite IH.
  - destruct (q a) eqn:Eq; [|exact IH].
    rewrite (H a Eq) in Ep. discriminate.
Qed.

Lemma rows_filter q p t :
  (forall x, selects q x = true -> p x = true) ->
  rows q (filter p t) = rows q t.
Proof.
  intros H. unfold rows. now rewrite filter_filter_implied.
Qed.

Lemma recent_filter p t u :
  (forall x, approved x = true -> user_id x = u -> p x = true) ->
  recent (filter p t) u = recent t u.
Proof.
  intros H. unfold recent. rewrite rows_filter; [reflexivity|].
  intros x Hs. apply selects_user in Hs as [Ha Hu]. now apply H.
Qed.

Lemma unique_ids_filter p t : unique_ids t -> unique_ids (filter p t).
Proof.
  unfold unique_ids. induction t as [|a t IH]; intros H; [constructor|].
  cbn [map] in H. inversion H as [|? ? Hn Hd]; subst. cbn [filter].
  destruct (p a); [|now apply IH]. cbn [map]. constructor; [|now apply IH].
  intros Hin. apply Hn. apply in_map_iff in Hin as (x & Hx & Hf).
  apply filter_In in Hf as [Hf _]. apply in_map_iff. now exists x.
Qed.

(** A run commutes with a selection of rows that goes by the columns a run
    does not write and that takes, with a row, the approved rows of the
    same user. *)
Lemma populate_filter days p t :
  (forall x y, columns x = columns y -> p x = p y) ->
  (forall x y, p x = true -> approved y = true -> user_id y = user_id x ->
     p y = true) ->
  populate days (filter p t) = filter p (populate days t).
Proof.
  intros Hc Hp. unfold populate at 2. rewrite filter_map_commute.
  rewrite (filter_ext (fun x => p (populate_row days t x)) p)
    by (intros x; apply Hc, populate_row_columns).
  unfold populate. apply map_ext_in. intros x Hx.
  apply filter_In in Hx as [_ Hx]. unfold populate_row, is_recent.
  rewrite recent_filter; [reflexivity|].
  intros y Ha Hu. now apply (Hp x y).
Qed.

Lemma of_user_columns u x y : columns x = columns y -> of_user u x = of_user u y.
Proof.
  intros H. apply columns_fields in H as (_ & H & _). unfold of_user.
  now rewrite H.
Qed.

(** X9.  What a run does to the records of a user depends on the records of
    that user alone: the records of user [u] after a run over the whole
    table are the records a run over the records of [u] alone leaves. *)
Theorem X9_users_are_independent days t batch_size fuel fuel_u tr u :
  unique_ids t ->
  0 < batch_size ->
  (iterations t batch_size <= fuel)%nat ->
  (iterations (filter (of_user u) t) batch_size <= fuel_u)%nat ->
  exists w w_u,
    handle days never_fails fuel batch_size {| db := t; trace := tr |}
    = Val tt w
    /\ handle days never_fails fuel_u batch_size
         {| db := filter (of_user u) t; trace := tr |}
       = Val tt w_u
    /\ db w_u = filter (of_user u) (db w).
Proof.
  intros Hu Hb Hf Hfu. do 2 eexists. split; [now apply handle_run|].
  split; [apply handle_run; trivial; now apply unique_ids_filter|].
  cbn [db]. apply populate_filter.
  - apply of_user_columns.
  - unfold of_user. intros x y Hx _ Hy. apply Z.eqb_eq in Hx.
    apply Z.eqb_eq. congruence.
Qed.

Lemma X9_users_are_independent_witness :
  exists w w_u,
    handle 365 never_fails 2 1000 sample_world = Val tt w
    /\ handle 365 never_fails 1 1000
         {| db := filter (of_user 42) sample_table; trace := [] |}
       = Val tt w_u
    /\ db w_u = filter (of_user 42) (db w).
Proof.
  apply (X9_users_are_independent 365 sample_table 1000 2 1 [] 42).
  - unique_ids_by_computation.
  - lia.
  - vm_compute; lia.
  - vm_compute; lia.
Defined.





(** ** A change of [DAYS_GOOD_FOR] *)

Lemma populate_populate days1 days2 t :
  populate days2 (populate days1 t) = populate days2 t.
Proof.
  unfold populate at 1 3. unfold populate at 2. rewrite map_map.
  apply map_ext. intros x. unfold populate_row at 1.
  fold (populate days1 t). unfold populate.
  rewrite is_recent_map by apply populate_row_columns.
  destruct (is_recent t x) eqn:E.
  - unfold populate_row at 2. rewrite E.
    apply set_expiry_date_congr, populate_row_columns.
  - unfold populate_row. now rewrite E.
Qed.

(** X11.  The expiry dates an earlier run has left do not bind a later one:
    after the setting [DAYS_GOOD_FOR] has changed, a run leaves the table a
    run with the new setting would have left of the original table. *)
Theorem X11_run_after_setting_change days1 days2 t batch_size1 batch_size2
  fuel1 fuel2 tr :
  unique_ids t ->
  0 < batch_size1 -> 0 < batch_size2 ->
  (iterations t batch_size1 <= fuel1)%nat ->
  (iterations t batch_size2 <= fuel2)%nat ->
  exists w1 w2 w,
    handle days1 never_fails fuel1 batch_size1 {| db := t; trace := tr |}
    = Val tt w1
    /\ handle days2 never_fails fuel2 batch_size2 w1 = Val tt w2
    /\ handle days2 never_fails fuel2 batch_size2 {| db := t; trace := tr |}
       = Val tt w
    /\ db w2 = db w.
Proof.
  intros Hu Hb1 Hb2 Hf1 Hf2. do 3 eexists.
  split; [now apply handle_run|]. split; [|split; [now apply handle_run|]].
  - apply handle_run; trivial.
    + now apply populate_unique.
    + now rewrite iterations_populate.
  - cbn [db]. apply populate_populate.
Qed.

Lemma X11_run_after_setting_change_witness :
  exists w1 w2 w,
    handle 365 never_fails 2 1000 sample_world = Val tt w1
    /\ handle 30 never_fails 200 7 w1 = Val tt w2
    /\ handle 30 never_fails 200 7 sample_world = Val tt w
    /\ db w2 = db w.
Proof.
  apply (X11_run_after_setting_change 365 30 sample_table 1000 7 2 200 []).
  - unique_ids_by_computation.
  - lia.
  - lia.
  - vm_compute; lia.
  - vm_compute; lia.
Defined.
